(** * transcribe-vaam-video-with-gemini: a shallow embedding of the CLI tool

    The script resolves a Vaam share link to a media URL, downloads the
    media to a temporary file, sends it to Gemini and prints the
    transcript.  Everything the script touches outside its own code
    (argv, the environment, the network, the file system, the clock,
    the Gemini SDK) is gathered in a [world] record; the script itself
    is written in a small monad whose computations end in one of three
    ways: they return, they throw, or they call [process.exit].

    Strings are [string]s holding text in UTF-8 (the characters the
    pattern and the flag tests look at are all ASCII), buffers are
    lists of bytes.  The file system is the finite map from the paths
    of the regular files to their contents: directories are not part
    of it, so [mkdir] shows by its outcome only.  A write stores all
    of its data or, when it is rejected, nothing, and [unlink] is
    rejected only when the file is missing: a disk that fills up
    half-way and a file that may not be removed are not modelled, and
    the properties of failed downloads and of [cleanup] are stated so
    that they hold with them as well.

    The retry and polling helpers of lib/helpers.js (retryWithBackoff,
    waitForChromeDebug, safeClick, detectDevServers) are embedded after
    the script, as functions from the outcomes of the wrapped calls to a
    trace of events and a result. *)

From Stdlib Require Import Ascii NArith ZArith Bool Lia DecimalString.
From Stdlib Require String.
From stdpp Require Import base option list gmap strings.

Local Open Scope Z_scope.

(** ** Characters and strings *)

Definition dquote : ascii := "034"%char.
Definition backslash : ascii := "092"%char.
Definition newline : ascii := "010"%char.

Definition str (c : ascii) : string := String c EmptyString.

(** [`${n}`] for a non-negative integer. *)
Definition decimal (n : N) : string := NilZero.string_of_uint (N.to_uint n).

(** [s.startsWith(p)] *)
Definition startsWith (s p : string) : bool := String.prefix p s.

(** [args.includes(x)] *)
Definition includes (args : list string) (x : string) : bool :=
  existsb (String.eqb x) args.

(** Truthiness of a value of type [string | null | undefined]: the
    empty string is falsy, like [null] and [undefined]. *)
Definition truthy (v : option string) : bool :=
  match v with
  | Some s => negb (String.eqb s "")
  | None => false
  end.

(** [a || b] on such values. *)
Definition js_or (a b : option string) : option string :=
  if truthy a then a else b.

(** ** Types (lines 44-60) *)

Inductive ErrorCode : Set :=
  | MISSING_ARGUMENT
  | INVALID_URL
  | MISSING_API_KEY
  | VIDEO_EXTRACTION_FAILED
  | VIDEO_DOWNLOAD_FAILED
  | TRANSCRIPTION_FAILED.

Definition code_name (c : ErrorCode) : string :=
  match c with
  | MISSING_ARGUMENT => "MISSING_ARGUMENT"
  | INVALID_URL => "INVALID_URL"
  | MISSING_API_KEY => "MISSING_API_KEY"
  | VIDEO_EXTRACTION_FAILED => "VIDEO_EXTRACTION_FAILED"
  | VIDEO_DOWNLOAD_FAILED => "VIDEO_DOWNLOAD_FAILED"
  | TRANSCRIPTION_FAILED => "TRANSCRIPTION_FAILED"
  end.

Record ErrorInfo : Set := mkErrorInfo {
  code : ErrorCode;
  message : string;
  details : string;
  suggestion : string
}.

Record ErrorResult : Set := mkErrorResult {
  success : bool;
  error : ErrorInfo
}.

(** ** Configuration (lines 66-69) *)

Definition VAAM_API_KEY : string := "e77d68f7-8318-4b48-b7f4-258c9596685f".
Definition GEMINI_MODEL : string := "gemini-2.5-flash".

(** [\w] without the unicode or ignore-case flag: [A-Za-z0-9_]. *)
Definition is_word_char (c : ascii) : bool :=
  let n := N_of_ascii c in
  ((48 <=? n) && (n <=? 57) || (65 <=? n) && (n <=? 90)
   || (97 <=? n) && (n <=? 122) || (n =? 95))%N.

(** The class [[\w-]]. *)
Definition is_id_char (c : ascii) : bool :=
  is_word_char c || Ascii.eqb c "-".

Fixpoint all_chars (p : ascii -> bool) (s : string) : bool :=
  match s with
  | EmptyString => true
  | String c s' => p c && all_chars p s'
  end.

(** Remove a literal prefix, if it is there. *)
Fixpoint strip_prefix (p s : string) : option string :=
  match p, s with
  | EmptyString, _ => Some s
  | String a p', String b s' =>
      if Ascii.eqb a b then strip_prefix p' s' else None
  | String _ _, EmptyString => None
  end.

Definition SHARE_PREFIX : string := "https://app.vaam.io/share/".

(** [s.match(VAAM_URL_PATTERN)], reduced to its first capture group.
    The pattern [/^https:\/\/app\.vaam\.io\/share\/([\w-]+)$/] has no
    flags: [^] and [$] are the two ends of the input, and the group is
    one or more characters of [[\w-]]. *)
Definition VAAM_URL_PATTERN_match (s : string) : option string :=
  match strip_prefix SHARE_PREFIX s with
  | Some id =>
      if negb (String.eqb id "") && all_chars is_id_char id
      then Some id else None
  | None => None
  end.

(** [VAAM_URL_PATTERN.test(s)] *)
Definition VAAM_URL_PATTERN_test (s : string) : bool :=
  match VAAM_URL_PATTERN_match s with Some _ => true | None => false end.

(** ** Utilities (lines 88-115) *)

Definition createError (c : ErrorCode) (m d s : string) : ErrorResult :=
  {| success := false;
     error := {| code := c; message := m; details := d; suggestion := s |} |}.

Definition getExitCode (c : ErrorCode) : Z :=
  match c with
  | MISSING_ARGUMENT | INVALID_URL | MISSING_API_KEY => 1
  | VIDEO_EXTRACTION_FAILED | VIDEO_DOWNLOAD_FAILED
  | TRANSCRIPTION_FAILED => 2
  end.

(** *** [JSON.stringify(error, null, 2)] *)

Definition hex_digit (n : N) : ascii :=
  ascii_of_N (if (n <? 10)%N then 48 + n else 87 + n)%N.

(** One character inside a JSON string literal: the two-character
    escapes, [\u00xx] for the other control characters, the character
    itself otherwise. *)
Definition json_escape (c : ascii) : string :=
  let n := N_of_ascii c in
  if (n =? 8)%N then String backslash "b"
  else if (n =? 9)%N then String backslash "t"
  else if (n =? 10)%N then String backslash "n"
  else if (n =? 12)%N then String backslash "f"
  else if (n =? 13)%N then String backslash "r"
  else if (n =? 34)%N then String backslash (str dquote)
  else if (n =? 92)%N then String backslash (str backslash)
  else if (n <? 32)%N then
    String backslash
      ("u00" +:+ String (hex_digit (n / 16)) (str (hex_digit (n mod 16))))
  else str c.

Fixpoint json_escape_all (s : string) : string :=
  match s with
  | EmptyString => EmptyString
  | String c s' => json_escape c +:+ json_escape_all s'
  end.

Definition json_quote (s : string) : string :=
  String dquote (json_escape_all s +:+ str dquote).

Definition json_bool (b : bool) : string := if b then "true" else "false".

(** A member line [indent "key": value]. *)
Definition json_member (indent key value : string) : string :=
  indent +:+ json_quote key +:+ ": " +:+ value.

Definition nl : string := str newline.

Definition JSON_stringify (e : ErrorResult) : string :=
  "{" +:+ nl +:+
  json_member "  " "success" (json_bool (success e)) +:+ "," +:+ nl +:+
  json_member "  " "error" "{" +:+ nl +:+
  json_member "    " "code" (json_quote (code_name (code (error e))))
    +:+ "," +:+ nl +:+
  json_member "    " "message" (json_quote (message (error e)))
    +:+ "," +:+ nl +:+
  json_member "    " "details" (json_quote (details (error e)))
    +:+ "," +:+ nl +:+
  json_member "    " "suggestion" (json_quote (suggestion (error e)))
    +:+ nl +:+
  "  }" +:+ nl +:+
  "}".


(** ** The outside world *)

(** The outcome of an awaited promise.  A rejection carries the text
    that [err instanceof Error ? err.message : String(err)] yields for
    the thrown value. *)
Inductive settled (A : Type) : Type :=
  | Fulfilled (a : A)
  | Rejected (reason : string).
Arguments Fulfilled {A} a.
Arguments Rejected {A} reason.

(** The payload of the capture-lookup endpoint, as the script types
    it: [{ mp4?: string; webm?: string; hls?: string }]. *)
Record CapturePaths : Set := mkCapturePaths {
  mp4 : option string;
  webm : option string;
  hls : option string
}.

(** What the script reads of a [fetch] response.  [json] is the value
    of [response.json()]: a rejection when the body does not parse,
    [None] for a falsy JSON value ([null], [false], [0], the empty
    string), the three optional fields otherwise (a truthy value
    without them, such as [{}] or an array, is the record with no
    field). *)
Record Response : Type := mkResponse {
  ok : bool;
  status : N;
  statusText : string;
  json : settled (option CapturePaths);
  arrayBuffer : settled (list Byte.byte)
}.

(** One invocation's surroundings.  [fetch] gives the outcome of a
    request by its URL (the script issues at most two, to different
    endpoints); the other oracles say whether the call goes through. *)
Record world : Type := mkWorld {
  argv : list string;                   (* process.argv.slice(2) *)
  GEMINI_API_KEY : option string;       (* process.env.GEMINI_API_KEY *)
  tmpdir : string;                      (* os.tmpdir() *)
  Date_now : N;                         (* Date.now() *)
  files : gmap string (list Byte.byte);      (* files present at start *)
  fetch : string -> settled Response;
  mkdir : string -> settled unit;
  (* whether Bun.write(path, data) goes through *)
  Bun_write : string -> list Byte.byte -> settled unit;
  (* new GoogleGenerativeAI(apiKey).getGenerativeModel({model})
       .generateContent([{inlineData}, prompt]), then response.text();
     the third argument is the video the inline data encodes *)
  generateContent :
    string -> string -> list Byte.byte -> string -> settled string
}.

(** ** The process *)

(** Standard output is the list of [console.log] calls, oldest first;
    [verbose] and [tempFilePath] are the two module globals. *)
Record process : Type := mkProcess {
  stdout : list string;
  fs : gmap string (list Byte.byte);
  verbose : bool;
  tempFilePath : option string
}.

(** How a computation ends.  [Exited] is [process.exit(code)]: the
    process is gone at once, no [catch] sees it and no [finally] block
    runs after it. *)
Inductive completion (A : Type) : Type :=
  | Normal (a : A) (p : process)
  | Thrown (reason : string) (p : process)
  | Exited (exit_code : Z) (p : process).
Arguments Normal {A} a p.
Arguments Thrown {A} reason p.
Arguments Exited {A} exit_code p.

Definition M (A : Type) : Type := process -> completion A.

#[export] Instance M_ret : MRet M := fun A a p => Normal a p.

#[export] Instance M_bind : MBind M := fun A B f m p =>
  match m p with
  | Normal a p' => f a p'
  | Thrown e p' => Thrown e p'
  | Exited c p' => Exited c p'
  end.

#[export] Instance M_throw : MThrow string M := fun A e p => Thrown e p.

Definition process_exit {A : Type} (c : Z) : M A := fun p => Exited c p.

(** [await] of a promise whose outcome the world fixes. *)
Definition await {A : Type} (r : settled A) : M A :=
  match r with
  | Fulfilled a => mret a
  | Rejected e => mthrow e
  end.

(** [try { body } catch (err) { handler }] *)
Definition try_catch {A : Type} (body : M A) (handler : string -> M A) : M A :=
  fun p =>
    match body p with
    | Thrown e p' => handler e p'
    | r => r
    end.

(** [try { body } finally { fin }]: [fin] runs when [body] returns or
    throws, and its own abrupt completion wins. *)
Definition try_finally {A : Type} (body : M A) (fin : M unit) : M A :=
  fun p =>
    match body p with
    | Normal a p' =>
        match fin p' with
        | Normal _ p'' => Normal a p''
        | Thrown e p'' => Thrown e p''
        | Exited c p'' => Exited c p''
        end
    | Thrown e p' =>
        match fin p' with
        | Normal _ p'' => Thrown e p''
        | Thrown e' p'' => Thrown e' p''
        | Exited c p'' => Exited c p''
        end
    | Exited c p' => Exited c p'
    end.

Definition console_log (line : string) : M unit := fun p =>
  Normal tt {| stdout := stdout p ++ [line]; fs := fs p;
               verbose := verbose p; tempFilePath := tempFilePath p |}.

Definition set_verbose (b : bool) : M unit := fun p =>
  Normal tt {| stdout := stdout p; fs := fs p;
               verbose := b; tempFilePath := tempFilePath p |}.

Definition set_tempFilePath (v : option string) : M unit := fun p =>
  Normal tt {| stdout := stdout p; fs := fs p;
               verbose := verbose p; tempFilePath := v |}.

Definition get_tempFilePath : M (option string) := fun p =>
  Normal (tempFilePath p) p.

Definition set_fs (f : gmap string (list Byte.byte)) : M unit := fun p =>
  Normal tt {| stdout := stdout p; fs := f;
               verbose := verbose p; tempFilePath := tempFilePath p |}.

Definition quoted (s : string) : string := String "'" (s +:+ "'").

(** [unlink(path)]: removes the file, rejects when there is none. *)
Definition unlink (path : string) : M unit := fun p =>
  match fs p !! path with
  | Some _ => set_fs (delete path (fs p)) p
  | None =>
      Thrown ("ENOENT: no such file or directory, unlink " +:+ quoted path) p
  end.

(** [readFile(path)]; the script passes it the global [tempFilePath],
    of type [string | null]. *)
Definition readFile (path : option string) : M (list Byte.byte) := fun p =>
  match path with
  | Some path =>
      match fs p !! path with
      | Some data => Normal data p
      | None =>
          Thrown ("ENOENT: no such file or directory, open " +:+ quoted path) p
      end
  | None =>
      Thrown ("The " +:+ str dquote +:+ "path" +:+ str dquote +:+
              " argument must be of type string or an instance of Buffer or URL. Received null") p
  end.

(** [Bun.write(path, data)]: the file holds [data] when the write is
    fulfilled; a rejected write leaves the file system as it was. *)
Definition write_file (w : world) (path : string) (data : list Byte.byte) : M unit :=
  fun p =>
    match Bun_write w path data with
    | Fulfilled _ => set_fs (<[path := data]> (fs p)) p
    | Rejected e => Thrown e p
    end.

(** ** Utilities (lines 82-102) *)

Definition log (message : string) : M unit := fun p =>
  if verbose p then console_log message p else Normal tt p.

Definition outputError (e : ErrorResult) : M unit :=
  console_log (JSON_stringify e).

Definition q : string := str dquote.

Definition help : string :=
"transcribe-vaam-video-with-gemini.ts - Transcribe Vaam videos using Gemini AI

USAGE:
  bun transcribe-vaam-video-with-gemini.ts [OPTIONS] <vaam-url>

ARGUMENTS:
  <vaam-url>    Vaam share URL (e.g., https://app.vaam.io/share/abc123)

OPTIONS:
  --help, -h     Show this help message
  --verbose, -v  Enable progress logging

ENVIRONMENT:
  GEMINI_API_KEY  Required. Your Google Gemini API key.

EXAMPLES:
  bun transcribe-vaam-video-with-gemini.ts https://app.vaam.io/share/abc123
  bun transcribe-vaam-video-with-gemini.ts --verbose https://app.vaam.io/share/abc123

OUTPUT:
  Success: Plain text transcription to stdout
  Error:   JSON to stdout: { " +:+ q +:+ "success" +:+ q +:+ ": false, "
  +:+ q +:+ "error" +:+ q +:+ ": { "
  +:+ q +:+ "code" +:+ q +:+ ": " +:+ q +:+ "..." +:+ q +:+ ", "
  +:+ q +:+ "message" +:+ q +:+ ": " +:+ q +:+ "..." +:+ q +:+ ", "
  +:+ q +:+ "details" +:+ q +:+ ": " +:+ q +:+ "..." +:+ q +:+ ", "
  +:+ q +:+ "suggestion" +:+ q +:+ ": " +:+ q +:+ "..." +:+ q +:+ " } }

EXIT CODES:
  0  Success
  1  Usage/validation error (bad input, missing API key)
  2  Runtime error (network failure, API error)".

Definition showHelp : M unit := console_log help.

(** The idiom [outputError(error); process.exit(getExitCode(error.error.code))]. *)
Definition exit_with {A : Type} (e : ErrorResult) : M A :=
  outputError e;; process_exit (getExitCode (code (error e))).

(** [if (!v) { bail } rest(v)]: past the test, [v] is a non-empty
    string. *)
Definition unless_falsy {A : Type}
    (v : option string) (bail : M A) (rest : string -> M A) : M A :=
  match v with
  | Some s => if truthy v then rest s else bail
  | None => bail
  end.

(** ** Cleanup (lines 153-162) *)

Definition cleanup : M unit :=
  path ← get_tempFilePath;
  unless_falsy path (mret tt) (fun path =>
    try_catch
      (unlink path;;
       log ("Cleaned up temporary file: " +:+ path))
      (fun _ => mret tt)).

(** ** Vaam video extraction (lines 168-198) *)

Definition extractCaptureId (vaamUrl : string) : option string :=
  VAAM_URL_PATTERN_match vaamUrl.

(** [data.mp4 || data.webm || data.hls || null] *)
Definition select_url (data : CapturePaths) : option string :=
  js_or (js_or (js_or (mp4 data) (webm data)) (hls data)) None.

(** The lookup URL built on line 179. *)
Definition api_url (captureId : string) : string :=
  "https://app.vaam.io/api/captures/paths?captureId=" +:+ captureId
  +:+ "&apiKey=" +:+ VAAM_API_KEY.

(** The error object built on line 191. *)
Definition no_payload_error : ErrorResult :=
  createError VIDEO_DOWNLOAD_FAILED
    "Failed to extract video URL from Vaam API response"
    "" "Validate the link".

Definition extractVideoUrl (w : world) (vaamUrl : string) : M (option string) :=
  unless_falsy (extractCaptureId vaamUrl) (mret None) (fun captureId =>
    let apiUrl := api_url captureId in
    log "Fetching video URL from Vaam API...";;
    response ← await (fetch w apiUrl);
    if negb (ok response) then mret None
    else
      data ← await (json response);
      match data with
      | None =>
          let error := no_payload_error in
          outputError error;;
          mret None
      | Some data => mret (select_url data)
      end).

(** ** Video download (lines 204-224) *)

(** *** [path.join] (POSIX) *)

(** The segments of a path between its separators; empty segments
    stand for leading, trailing and doubled separators. *)
Fixpoint split_path (path : string) : list string :=
  match path with
  | EmptyString => [EmptyString]
  | String c rest =>
      if Ascii.eqb c "/" then EmptyString :: split_path rest
      else
        match split_path rest with
        | segment :: segments => String c segment :: segments
        | [] => [String c EmptyString]
        end
  end.

(** One segment more on the stack of segments kept so far (last
    segment first): empty segments and [.] are dropped, [..] removes
    the segment before it, or stays when there is none to remove and
    the path is relative. *)
Definition push_segment (allowAboveRoot : bool) (kept : list string)
    (segment : string) : list string :=
  if String.eqb segment "" || String.eqb segment "." then kept
  else if String.eqb segment ".." then
    match kept with
    | top :: below =>
        if String.eqb top ".."
        then (if allowAboveRoot then segment :: kept else kept)
        else below
    | [] => if allowAboveRoot then [segment] else []
    end
  else segment :: kept.

Fixpoint join_segments (segments : list string) : string :=
  match segments with
  | [] => ""
  | [segment] => segment
  | segment :: rest => segment +:+ "/" +:+ join_segments rest
  end.

(** [path.charCodeAt(path.length - 1) === 47] *)
Fixpoint ends_with_slash (path : string) : bool :=
  match path with
  | EmptyString => false
  | String c EmptyString => Ascii.eqb c "/"
  | String _ rest => ends_with_slash rest
  end.

(** [path.normalize(path)]: the segments that are kept, with the
    leading separator of an absolute path and a trailing separator
    put back. *)
Definition normalize (path : string) : string :=
  if String.eqb path "" then "."
  else
    let isAbsolute := startsWith path "/" in
    let trailingSeparator := ends_with_slash path in
    let kept :=
      rev (fold_left (push_segment (negb isAbsolute)) (split_path path) []) in
    match kept with
    | [] =>
        if isAbsolute then "/" else if trailingSeparator then "./" else "."
    | _ :: _ =>
        (if isAbsolute then "/" else "")
        +:+ join_segments kept
        +:+ (if trailingSeparator then "/" else "")
    end.

(** [path.join(...args)]: the non-empty arguments, joined by
    separators and normalised. *)
Definition join (args : list string) : string :=
  match List.filter (fun arg => negb (String.eqb arg "")) args with
  | [] => "."
  | parts => normalize (join_segments parts)
  end.

(** [join(tmpdir(), "gemini-analyze-video")] *)
Definition TEMP_DIR (w : world) : string :=
  join [tmpdir w; "gemini-analyze-video"].

Definition two_digits (n : N) : string :=
  (if (n <? 10)%N then "0" else "") +:+ decimal n.

(** [(byteLength / (1024 * 1024)).toFixed(2)].  The quotient by a power
    of two is exact, so the result is the byte count over 2^20 rounded
    to hundredths, ties upward. *)
Definition fileSizeMB (byteLength : N) : string :=
  let hundredths := ((100 * byteLength + 524288) / 1048576)%N in
  decimal (hundredths / 100) +:+ "." +:+ two_digits (hundredths mod 100).

Definition downloadVideo (w : world) (videoUrl : string) : M string :=
  await (mkdir w (TEMP_DIR w));;
  let fileName := "vaam-" +:+ decimal (Date_now w) +:+ ".mp4" in
  let filePath := join [TEMP_DIR w; fileName] in
  log ("Downloading video to " +:+ filePath +:+ "...");;
  response ← await (fetch w videoUrl);
  if negb (ok response) then
    mthrow ("HTTP " +:+ decimal (status response) +:+ ": "
            +:+ statusText response)
  else
    buffer ← await (arrayBuffer response);
    write_file w filePath buffer;;
    log ("Downloaded " +:+ fileSizeMB (N.of_nat (length buffer)) +:+ " MB");;
    mret filePath.

(** ** Gemini transcription (lines 230-262) *)

Definition prompt : string :=
"Please transcribe this video. If the video is in another language, do not translate it.

Include all spoken content and any important visual information shown on screen.

Do not include timestamps in the transcription.".

(** [s.length]: the number of UTF-16 code units of a text held in
    UTF-8.  A byte that opens a character of up to three bytes counts
    one unit, one that opens a four-byte character counts two (a
    surrogate pair), a continuation byte none. *)
Fixpoint js_length (s : string) : nat :=
  match s with
  | EmptyString => 0
  | String c rest =>
      (let n := N_of_ascii c in
       if (n <? 128)%N then 1
       else if (n <? 192)%N then 0
       else if (n <? 240)%N then 1
       else 2)
      + js_length rest
  end.

Definition transcribeVideo
    (w : world) (videoPath : option string) (apiKey : string) : M string :=
  log "Reading video file...";;
  videoBuffer ← readFile videoPath;
  log "Sending to Gemini for transcription...";;
  transcription ←
    await (generateContent w apiKey GEMINI_MODEL videoBuffer prompt);
  log ("Transcription complete ("
       +:+ decimal (N.of_nat (js_length transcription))
       +:+ " characters)");;
  mret transcription.

(** ** Main (lines 268-396) *)

(** The six error objects [main] and the top-level handler build. *)

Definition missing_argument_error : ErrorResult :=
  createError MISSING_ARGUMENT
    "No Vaam URL provided"
    "This command requires a Vaam share URL as an argument."
    "Run with --help to see usage examples, or provide a URL like: bun transcribe-vaam-video-with-gemini.ts https://app.vaam.io/share/abc123".

Definition invalid_url_error (vaamUrl : string) : ErrorResult :=
  createError INVALID_URL
    "Invalid Vaam URL format"
    ("Received: " +:+ q +:+ vaamUrl +:+ q
     +:+ ". Expected format: https://app.vaam.io/share/[id]")
    "Ensure the URL matches the pattern https://app.vaam.io/share/[alphanumeric-id]. The ID can contain letters, numbers, and hyphens.".

Definition missing_api_key_error : ErrorResult :=
  createError MISSING_API_KEY
    "GEMINI_API_KEY environment variable not set"
    "The Gemini API key is required to transcribe videos."
    "Set the GEMINI_API_KEY environment variable. You can get an API key from https://aistudio.google.com/apikey".

Definition extraction_failed_error (vaamUrl : string) : ErrorResult :=
  createError VIDEO_EXTRACTION_FAILED
    "Could not extract video URL from Vaam"
    ("The Vaam API did not return a video URL for: " +:+ vaamUrl)
    "Verify the Vaam link is valid and the video exists. The video may have been deleted or the link may have expired.".

Definition download_failed_error (errorMessage : string) : ErrorResult :=
  createError VIDEO_DOWNLOAD_FAILED
    "Failed to download video file"
    ("Download error: " +:+ errorMessage)
    "Check your network connection. The video URL may have expired or the server may be temporarily unavailable.".

Definition transcription_failed_error (errorMessage : string) : ErrorResult :=
  createError TRANSCRIPTION_FAILED
    "Gemini API transcription error"
    ("Transcription error: " +:+ errorMessage)
    "Check your GEMINI_API_KEY is valid. The video may be too large, corrupted, or in an unsupported format. Gemini supports videos up to 2GB.".

Definition unexpected_error (errorMessage : string) : ErrorResult :=
  createError TRANSCRIPTION_FAILED
    "Unexpected error"
    ("Error: " +:+ errorMessage)
    "This is an unexpected error. Check the error details and try again.".

(** Lines 272-278: the flags and the positional arguments. *)

Definition helpFlag (args : list string) : bool :=
  includes args "--help" || includes args "-h".

Definition verboseFlag (args : list string) : bool :=
  includes args "--verbose" || includes args "-v".

Definition positionalArgs (args : list string) : list string :=
  List.filter
    (fun arg => negb (startsWith arg "-") && negb (startsWith arg "--"))
    args.

Definition main (w : world) : M unit :=
  let args := argv w in
  (if helpFlag args then showHelp;; process_exit 0 else mret tt);;
  set_verbose (verboseFlag args);;
  let vaamUrl := head (positionalArgs args) in
  unless_falsy vaamUrl (exit_with missing_argument_error) (fun vaamUrl =>
  (if negb (VAAM_URL_PATTERN_test vaamUrl)
   then exit_with (invalid_url_error vaamUrl) else mret tt);;
  let apiKey := GEMINI_API_KEY w in
  unless_falsy apiKey (exit_with missing_api_key_error) (fun apiKey =>
  log ("Processing Vaam URL: " +:+ vaamUrl);;
  try_finally
    (videoUrl ← extractVideoUrl w vaamUrl;
     unless_falsy videoUrl
       (exit_with (extraction_failed_error vaamUrl)) (fun videoUrl =>
     log ("Video URL: " +:+ videoUrl);;
     try_catch
       (filePath ← downloadVideo w videoUrl;
        set_tempFilePath (Some filePath))
       (fun errorMessage =>
          exit_with (download_failed_error errorMessage));;
     transcription ←
       try_catch
         (videoPath ← get_tempFilePath;
          transcribeVideo w videoPath apiKey)
         (fun errorMessage =>
            exit_with (transcription_failed_error errorMessage));
     console_log transcription;;
     process_exit 0))
    cleanup)).

(** The handler that [main().catch(...)] installs (lines 385-396). *)
Definition on_rejection (errorMessage : string) : M unit :=
  cleanup;;
  outputError (unexpected_error errorMessage);;
  process_exit 2.

(** The module body: [main().catch(async (err) => { ... })]. *)
Definition script (w : world) : M unit :=
  try_catch (main w) on_rejection.

(** ** Running the script *)

Definition start (w : world) : process :=
  {| stdout := []; fs := files w; verbose := false; tempFilePath := None |}.

Definition run (w : world) : completion unit := script w (start w).

(** The state the process leaves behind. *)
Definition final {A : Type} (r : completion A) : process :=
  match r with
  | Normal _ p | Thrown _ p | Exited _ p => p
  end.

(** The exit status: the argument of [process.exit]; 0 when the module
    runs to its end; 1 for an error nobody caught. *)
Definition exit_status {A : Type} (r : completion A) : Z :=
  match r with
  | Exited c _ => c
  | Normal _ _ => 0
  | Thrown _ _ => 1
  end.

(** The path [downloadVideo] writes to. *)
Definition temp_path (w : world) : string :=
  join [TEMP_DIR w; "vaam-" +:+ decimal (Date_now w) +:+ ".mp4"].

(** *** Sample worlds *)

Definition sample_video : list Byte.byte := [Byte.x00; Byte.x01; Byte.x02].

Definition sample_paths : CapturePaths :=
  {| mp4 := Some "https://cdn.example/v.mp4"; webm := None; hls := None |}.

Definition http_ok (body : settled (option CapturePaths)) : settled Response :=
  Fulfilled {| ok := true; status := 200; statusText := "OK";
               json := body; arrayBuffer := Fulfilled sample_video |}.

Definition sample_api_url : string :=
  "https://app.vaam.io/api/captures/paths?captureId=abc123&apiKey="
  +:+ VAAM_API_KEY.

(** A network on which the lookup answers [lookup] and every other URL
    serves the sample video. *)
Definition sample_fetch (lookup : settled Response) (url : string)
    : settled Response :=
  if String.eqb url sample_api_url then lookup
  else http_ok (Rejected "Unexpected token").

Definition sample_world
    (args : list string) (key : option string) (lookup : settled Response)
    (gemini : settled string) : world :=
  {| argv := args;
     GEMINI_API_KEY := key;
     tmpdir := "/tmp";
     Date_now := 1700000000000;
     files := ∅;
     fetch := sample_fetch lookup;
     mkdir := fun _ => Fulfilled tt;
     Bun_write := fun _ _ => Fulfilled tt;
     generateContent := fun _ _ _ _ => gemini |}.

Definition share_url : string := "https://app.vaam.io/share/abc123".

Definition happy_world (args : list string) : world :=
  sample_world args (Some "key") (http_ok (Fulfilled (Some sample_paths)))
    (Fulfilled "Hello from the video.").


(** ** Vocabulary of the properties *)

(** A run reports the error code [c] when the last thing it wrote to
    standard output is an error object with that code. *)
Definition reports {A : Type} (r : completion A) (c : ErrorCode) : Prop :=
  exists before m d s,
    stdout (final r) = before ++ [JSON_stringify (createError c m d s)].

(** The progress lines, written only in verbose mode. *)
Definition progress (v : bool) (lines : list string) : list string :=
  if v then lines else [].

Definition download_progress (w : world) (vaamUrl videoUrl : string)
    : list string :=
  ["Processing Vaam URL: " +:+ vaamUrl;
   "Fetching video URL from Vaam API...";
   "Video URL: " +:+ videoUrl;
   "Downloading video to " +:+ temp_path w +:+ "..."].

Definition transcription_progress
    (w : world) (vaamUrl videoUrl : string) (video : list Byte.byte)
    : list string :=
  download_progress w vaamUrl videoUrl
  ++ ["Downloaded " +:+ fileSizeMB (N.of_nat (length video)) +:+ " MB";
      "Reading video file...";
      "Sending to Gemini for transcription..."].

Definition success_progress
    (w : world) (vaamUrl videoUrl : string) (video : list Byte.byte)
    (text : string) : list string :=
  transcription_progress w vaamUrl videoUrl video
  ++ ["Transcription complete ("
      +:+ decimal (N.of_nat (js_length text)) +:+ " characters)"].

(** Every stage of the pipeline succeeds and Gemini returns [text]:
    the command line has no help flag and a share URL as its first
    positional argument, the credential is set, the lookup answers
    with a payload in which a URL is selected, that URL is fetched and
    stored, and the model answers. *)
Inductive all_stages_succeed (w : world) (text : string) : Prop :=
  | stages_succeed
      (vaamUrl captureId apiKey videoUrl : string)
      (lookup media : Response) (data : CapturePaths)
      (video : list Byte.byte)
      (no_help : helpFlag (argv w) = false)
      (first_positional : head (positionalArgs (argv w)) = Some vaamUrl)
      (captured : extractCaptureId vaamUrl = Some captureId)
      (has_key : GEMINI_API_KEY w = Some apiKey)
      (key_nonempty : apiKey <> "")
      (lookup_answers : fetch w (api_url captureId) = Fulfilled lookup)
      (lookup_ok : ok lookup = true)
      (payload : json lookup = Fulfilled (Some data))
      (selected : select_url data = Some videoUrl)
      (mkdir_ok : mkdir w (TEMP_DIR w) = Fulfilled tt)
      (media_answers : fetch w videoUrl = Fulfilled media)
      (media_ok : ok media = true)
      (media_body : arrayBuffer media = Fulfilled video)
      (written : Bun_write w (temp_path w) video = Fulfilled tt)
      (answered :
         generateContent w apiKey GEMINI_MODEL video prompt = Fulfilled text).

(** The selection as the specification words it: the first field that
    is present, in the order mp4, webm, hls. *)
Definition first_present (data : CapturePaths) : option string :=
  match mp4 data with
  | Some url => Some url
  | None =>
      match webm data with
      | Some url => Some url
      | None => hls data
      end
  end.

(** The same payload with every empty-string field left out. *)
Definition drop_blank (field : option string) : option string :=
  match field with
  | Some url => if String.eqb url "" then None else Some url
  | None => None
  end.

Definition blank_as_absent (data : CapturePaths) : CapturePaths :=
  {| mp4 := drop_blank (mp4 data);
     webm := drop_blank (webm data);
     hls := drop_blank (hls data) |}.

Definition all_blank : CapturePaths :=
  {| mp4 := Some ""; webm := Some ""; hls := Some "" |}.

(** *** More sample worlds *)

Definition unused : settled string := Rejected "not reached".

(** No credential, and an argument that is not a share URL. *)
Definition bad_url_no_key_world : world :=
  sample_world ["not-a-url"] None (Rejected "not reached") unused.

(** No credential, a well-formed share URL. *)
Definition no_key_world : world :=
  sample_world [share_url] None (Rejected "not reached") unused.

(** A single argument that starts with a dash. *)
Definition dash_world : world :=
  sample_world ["-x"] (Some "key") (Rejected "not reached") unused.

(** Only flags on the command line. *)
Definition flags_only_world : world :=
  sample_world ["-v"; "--fast"] (Some "key") (Rejected "not reached") unused.

(** A single argument that is not a share URL. *)
Definition bad_url_world : world :=
  sample_world ["http://app.vaam.io/share/abc123"] (Some "key")
    (Rejected "not reached") unused.

(** The lookup endpoint cannot be reached. *)
Definition offline_reason : string :=
  "Unable to connect. Is the computer able to access the url?".

Definition offline_world : world :=
  sample_world [share_url] (Some "key") (Rejected offline_reason) unused.

(** The lookup endpoint answers 200 with the body [null]. *)
Definition null_body_world : world :=
  sample_world [share_url] (Some "key") (http_ok (Fulfilled None)) unused.

(** The lookup endpoint answers with three empty strings. *)
Definition all_blank_world : world :=
  sample_world [share_url] (Some "key") (http_ok (Fulfilled (Some all_blank)))
    unused.

(** A payload whose mp4 field is present but empty. *)
Definition blank_mp4 : CapturePaths :=
  {| mp4 := Some ""; webm := Some "https://cdn.example/v.webm"; hls := None |}.

(** The lookup endpoint answers with that payload. *)
Definition blank_mp4_world : world :=
  sample_world [share_url] (Some "key") (http_ok (Fulfilled (Some blank_mp4)))
    unused.

(** The same surroundings with another temporary directory. *)
Definition with_tmpdir (w : world) (dir : string) : world :=
  {| argv := argv w;
     GEMINI_API_KEY := GEMINI_API_KEY w;
     tmpdir := dir;
     Date_now := Date_now w;
     files := files w;
     fetch := fetch w;
     mkdir := mkdir w;
     Bun_write := Bun_write w;
     generateContent := generateContent w |}.

(** *** Worlds that differ in the command line only *)

Definition with_argv (w : world) (args : list string) : world :=
  {| argv := args;
     GEMINI_API_KEY := GEMINI_API_KEY w;
     tmpdir := tmpdir w;
     Date_now := Date_now w;
     files := files w;
     fetch := fetch w;
     mkdir := mkdir w;
     Bun_write := Bun_write w;
     generateContent := generateContent w |}.

(** The command line without its verbose flags. *)
Definition is_verbose_flag (arg : string) : bool :=
  String.eqb arg "--verbose" || String.eqb arg "-v".

Definition quiet_args (args : list string) : list string :=
  List.filter (fun arg => negb (is_verbose_flag arg)) args.

Definition quiet (w : world) : world := with_argv w (quiet_args (argv w)).

(** The four flags [main] looks for. *)
Definition is_known_flag (arg : string) : bool :=
  String.eqb arg "--help" || String.eqb arg "-h" || is_verbose_flag arg.

(** *** Reading back a JSON string literal *)

(** The characters [json_escape] does not print as themselves. *)
Definition escaped (c : ascii) : bool :=
  let n := N_of_ascii c in ((n <? 32) || (n =? 34) || (n =? 92))%N.

Definition hex_value (c : ascii) : option N :=
  let n := N_of_ascii c in
  if ((48 <=? n) && (n <=? 57))%N then Some (n - 48)%N
  else if ((97 <=? n) && (n <=? 102))%N then Some (n - 87)%N
  else None.

(** The character after a backslash, and what follows it. *)
Definition read_escape (s : string) : option (ascii * string) :=
  match s with
  | String t rest =>
      if Ascii.eqb t "b" then Some ("008"%char, rest)
      else if Ascii.eqb t "t" then Some ("009"%char, rest)
      else if Ascii.eqb t "n" then Some ("010"%char, rest)
      else if Ascii.eqb t "f" then Some ("012"%char, rest)
      else if Ascii.eqb t "r" then Some ("013"%char, rest)
      else if Ascii.eqb t dquote then Some (dquote, rest)
      else if Ascii.eqb t backslash then Some (backslash, rest)
      else if Ascii.eqb t "u" then
        match rest with
        | String "0" (String "0" (String h (String l rest'))) =>
            match hex_value h, hex_value l with
            | Some a, Some b => Some (ascii_of_N (16 * a + b), rest')
            | _, _ => None
            end
        | _ => None
        end
      else None
  | EmptyString => None
  end.

(** The first character of the contents of a string literal, and the
    text after it; [None] at the closing quote. *)
Definition read_char (s : string) : option (ascii * string) :=
  match s with
  | String c rest =>
      if Ascii.eqb c dquote then None
      else if Ascii.eqb c backslash then read_escape rest
      else Some (c, rest)
  | EmptyString => None
  end.

(** The run gets as far as the download: validation passes and the
    lookup selects [videoUrl]. *)
Inductive reaches_download (w : world) (vaamUrl apiKey videoUrl : string) : Prop :=
  | lookup_selects
      (captureId : string) (lookup : Response) (data : CapturePaths)
      (no_help : helpFlag (argv w) = false)
      (first_positional : head (positionalArgs (argv w)) = Some vaamUrl)
      (captured : extractCaptureId vaamUrl = Some captureId)
      (has_key : GEMINI_API_KEY w = Some apiKey)
      (key_nonempty : apiKey <> "")
      (lookup_answers : fetch w (api_url captureId) = Fulfilled lookup)
      (lookup_ok : ok lookup = true)
      (payload : json lookup = Fulfilled (Some data))
      (selected : select_url data = Some videoUrl).

(** The media URL answers 404. *)
Definition not_found : settled Response :=
  Fulfilled {| ok := false; status := 404; statusText := "Not Found";
               json := Rejected "Unexpected token";
               arrayBuffer := Fulfilled [] |}.

Definition not_found_world : world :=
  {| argv := [share_url];
     GEMINI_API_KEY := Some "key";
     tmpdir := "/tmp";
     Date_now := 1700000000000;
     files := ∅;
     fetch := fun url =>
       if String.eqb url sample_api_url
       then http_ok (Fulfilled (Some sample_paths)) else not_found;
     mkdir := fun _ => Fulfilled tt;
     Bun_write := fun _ _ => Fulfilled tt;
     generateContent := fun _ _ _ _ => unused |}.

(** Gemini rejects the request. *)
Definition gemini_reason : string := "API key not valid. Please pass a valid API key.".

Definition gemini_down_world : world :=
  sample_world [share_url] (Some "key") (http_ok (Fulfilled (Some sample_paths)))
    (Rejected gemini_reason).

Definition sample_media : Response :=
  {| ok := true; status := 200; statusText := "OK";
     json := Rejected "Unexpected token";
     arrayBuffer := Fulfilled sample_video |}.

Definition sample_lookup : Response :=
  {| ok := true; status := 200; statusText := "OK";
     json := Fulfilled (Some sample_paths);
     arrayBuffer := Fulfilled sample_video |}.

(** *** Characters of the output *)

(** Not a control character. *)
Definition printable (c : ascii) : bool := (32 <=? N_of_ascii c)%N.

Fixpoint count_char (c : ascii) (s : string) : nat :=
  match s with
  | EmptyString => 0
  | String x s' => (if Ascii.eqb x c then 1 else 0) + count_char c s'
  end.

(** * lib/helpers.js: the retry and polling helpers

    The helpers wrap actions whose outcome the page or the network
    decides.  An action is given by the outcome of each of its calls,
    in order; what a helper does besides is recorded as a trace of
    events.  Numbers are integers; [number] is the text of a number in
    a template literal. *)

Inductive event : Type :=
  | Call (i : nat)                 (* the i-th call of the wrapped action *)
  | Request (port : N)             (* a HEAD request to localhost:port *)
  | ConsoleLog (line : string)
  | ConsoleError (line : string)
  | Sleep (ms : Z).                (* setTimeout / page.waitForTimeout *)

(** How a helper ends; [Threw None] is [throw undefined]. *)
Inductive result (A : Type) : Type :=
  | Returned (a : A)
  | Threw (error : option string).
Arguments Returned {A} a.
Arguments Threw {A} error.

(** The delays and the calls of a trace. *)
Definition sleeps (trace : list event) : list Z :=
  omap (fun ev => match ev with Sleep ms => Some ms | _ => None end) trace.

Definition calls (trace : list event) : list nat :=
  omap (fun ev => match ev with Call i => Some i | _ => None end) trace.

Definition total (delays : list Z) : Z := foldr Z.add 0 delays.

Section Helpers.
Variable number : Z -> string.

(** ** retryWithBackoff (lines 377-392) *)

(** The loop from iteration [i] on, with [todo] iterations to go. *)
Fixpoint retry_loop {A : Type} (fn : nat -> settled A) (initialDelay : Z)
    (i todo : nat) (lastError : option string) : list event * result A :=
  match todo with
  | O => ([], Threw lastError)
  | S todo' =>
      match fn i with
      | Fulfilled a => ([Call i], Returned a)
      | Rejected error =>
          let delay := initialDelay * 2 ^ Z.of_nat i in
          let '(trace, r) :=
            retry_loop fn initialDelay (S i) todo' (Some error) in
          (Call i
           :: ConsoleLog ("Attempt " +:+ number (Z.of_nat i + 1)
                          +:+ " failed, retrying in " +:+ number delay
                          +:+ "ms...")
           :: Sleep delay :: trace, r)
      end
  end.

(** [retryWithBackoff(fn, maxRetries = 3, initialDelay = 1000)]; an
    argument left out is [None]. *)
Definition retryWithBackoff {A : Type} (fn : nat -> settled A)
    (maxRetries initialDelay : option Z) : list event * result A :=
  retry_loop fn (default 1000 initialDelay) 0
    (Z.to_nat (default 3 maxRetries)) None.

(** ** waitForChromeDebug (lines 48-56) *)

(** [probe i] is what the i-th [isChromeDebugRunning()] resolves to. *)
Fixpoint wait_loop (probe : nat -> bool) (i todo : nat) : list event * bool :=
  match todo with
  | O => ([], false)
  | S todo' =>
      if probe i then ([Call i], true)
      else
        let '(trace, r) := wait_loop probe (S i) todo' in
        (Call i :: Sleep 500 :: trace, r)
  end.

Definition waitForChromeDebug (probe : nat -> bool) (maxAttempts : option Z)
    : list event * bool :=
  wait_loop probe 0 (Z.to_nat (default 10 maxAttempts)).

(** ** safeClick (lines 169-193) *)

(** The options that steer the loop; a property left out is [None].
    ([timeout] and [force] are only handed on to the two page calls,
    whose joint outcome is [attempt]; the pause between attempts is
    taken to go through.) *)
Record ClickOptions : Type := mkClickOptions {
  retries : option Z;
  retryDelay : option Z
}.

(** [v || d] for a number: [undefined] and [0] give [d]. *)
Definition number_or (v : option Z) (d : Z) : Z :=
  match v with
  | Some n => if n =? 0 then d else n
  | None => d
  end.

(** [attempt i] is the outcome of the i-th [waitForSelector] and
    [click]; the helper returns [true], or [undefined] when the loop
    runs out. *)
Fixpoint click_loop (attempt : nat -> settled unit) (selector : string)
    (maxRetries retryDelay : Z) (i todo : nat)
    : list event * result (option bool) :=
  match todo with
  | O => ([], Returned None)
  | S todo' =>
      match attempt i with
      | Fulfilled _ => ([Call i], Returned (Some true))
      | Rejected e =>
          if Z.of_nat i =? maxRetries - 1 then
            ([Call i;
              ConsoleError ("Failed to click " +:+ selector +:+ " after "
                            +:+ number maxRetries +:+ " attempts")],
             Threw (Some e))
          else
            let '(trace, r) :=
              click_loop attempt selector maxRetries retryDelay (S i) todo' in
            (Call i
             :: ConsoleLog ("Retry " +:+ number (Z.of_nat i + 1) +:+ "/"
                            +:+ number maxRetries +:+ " for clicking "
                            +:+ selector)
             :: Sleep retryDelay :: trace, r)
      end
  end.

Definition safeClick (attempt : nat -> settled unit) (selector : string)
    (options : ClickOptions) : list event * result (option bool) :=
  let maxRetries := number_or (retries options) 3 in
  let retryDelay := number_or (retryDelay options) 1000 in
  click_loop attempt selector maxRetries retryDelay 0 (Z.to_nat maxRetries).
End Helpers.

(** ** detectDevServers (lines 419-465) *)

(** [[...new Set(ports)]]: the ports in order of first appearance. *)
Fixpoint set_order (seen ports : list N) : list N :=
  match ports with
  | [] => []
  | port :: rest =>
      if existsb (N.eqb port) seen then set_order seen rest
      else port :: set_order (port :: seen) rest
  end.

Definition commonPorts : list N :=
  [3000; 3001; 3002; 5173; 8080; 8000; 4200; 5000; 9000; 1234]%N.

(** The loop over [allPorts].  [probe port] is the outcome of the HEAD
    request: the status code of the answer, or [None] when the request
    errors or times out. *)
Fixpoint detect_loop (number : Z -> string) (probe : N -> option N)
    (ports : list N) : list event * list string :=
  match ports with
  | [] => ([], [])
  | port :: rest =>
      let '(trace, found) := detect_loop number probe rest in
      match probe port with
      | Some statusCode =>
          if (statusCode <? 500)%N then
            (Request port
             :: ConsoleLog ("  ✅ Found server on port " +:+ number (Z.of_N port))
             :: trace,
             ("http://localhost:" +:+ number (Z.of_N port)) :: found)
          else (Request port :: trace, found)
      | None => (Request port :: trace, found)
      end
  end.

Definition detectDevServers (number : Z -> string) (probe : N -> option N)
    (customPorts : list N) : list event * list string :=
  let allPorts := set_order [] (commonPorts ++ customPorts) in
  let '(trace, detectedServers) := detect_loop number probe allPorts in
  (ConsoleLog "🔍 Checking for running dev servers..."
   :: trace
   ++ (if (length detectedServers =? 0)%nat
       then [ConsoleLog "  ❌ No dev servers detected"] else []),
   detectedServers).

(** The requests of a trace. *)
Definition requests (trace : list event) : list N :=
  omap (fun ev => match ev with Request port => Some port | _ => None end) trace.

(** A port answers like a server: its status code is below 500. *)
Definition answers (probe : N -> option N) (port : N) : bool :=
  match probe port with
  | Some statusCode => (statusCode <? 500)%N
  | None => false
  end.

(** ** Proof automation *)

Arguments JSON_stringify : simpl never.
Arguments help : simpl never.
Arguments String.append : simpl never.
Arguments join : simpl never.
Arguments normalize : simpl never.

(** Unfold the monad and the stages, leaving the oracles of the world
    and the string expressions in place. *)
Ltac expose :=
  cbv beta iota zeta delta
    [run script main start try_catch try_finally mbind M_bind mret M_ret
     mthrow M_throw await unless_falsy extractVideoUrl downloadVideo
     transcribeVideo log console_log set_verbose set_tempFilePath
     get_tempFilePath set_fs unlink readFile write_file outputError
     exit_with process_exit cleanup on_rejection showHelp
     stdout fs verbose tempFilePath final exit_status progress
     download_progress transcription_progress success_progress negb].

(** Rewrite with every equation among the hypotheses. *)
Ltac use_facts :=
  repeat match goal with
         | H : _ = _ |- _ => rewrite H
         end.

Ltac crank := repeat (progress (expose; use_facts)).

(** Run the script of world [w] to its end, in both logging modes. *)
Ltac pipeline w :=
  crank; destruct (verboseFlag (argv w)); crank;
  rewrite ?lookup_insert_eq; crank; try reflexivity.

(** * Properties *)

(** ** The error objects *)

(** The printed object determines the error code. *)
Lemma JSON_stringify_code c c' m m' d d' s s' :
  JSON_stringify (createError c m d s) = JSON_stringify (createError c' m' d' s') ->
  c = c'.
Proof.
  unfold JSON_stringify, createError; cbn -[json_escape_all].
  destruct c, c'; try reflexivity; cbn; intros H; discriminate H.
Qed.

Lemma reports_single {A : Type} (r : completion A) c m d s c' :
  stdout (final r) = [JSON_stringify (createError c m d s)] ->
  reports r c' -> c' = c.
Proof.
  intros Hout (before & m' & d' & s' & H). rewrite Hout in H.
  destruct before as [|x before]; simpl in H.
  - symmetry. apply (JSON_stringify_code c c' m m' d d' s s'). congruence.
  - destruct before; discriminate H.
Qed.

Lemma reports_intro {A : Type} (r : completion A) before c m d s :
  stdout (final r) = before ++ [JSON_stringify (createError c m d s)] ->
  reports r c.
Proof. unfold reports. eauto. Qed.

Lemma getExitCode_validation c :
  getExitCode c = 1 <-> c = MISSING_ARGUMENT \/ c = INVALID_URL \/ c = MISSING_API_KEY.
Proof.
  destruct c; simpl; split; auto; intros H;
    try discriminate H; destruct H as [H|[H|H]]; discriminate H.
Qed.

(** ** Command-line handling *)

Lemma startsWith_cons p ps a s :
  startsWith (String a s) (String p ps) =
  if Ascii.ascii_dec p a then startsWith s ps else false.
Proof. reflexivity. Qed.

Lemma startsWith_dash2 s : startsWith s "-" = false -> startsWith s "--" = false.
Proof.
  destruct s as [|a s]; [reflexivity|].
  change "--" with (String "-" "-"). change "-" with (String "-" "") at 1.
  rewrite !startsWith_cons.
  destruct (Ascii.ascii_dec "-" a); [|reflexivity].
  unfold startsWith. destruct s; discriminate.
Qed.

Lemma positionalArgs_flags args :
  forallb (fun arg => startsWith arg "-") args = true -> positionalArgs args = [].
Proof.
  induction args as [|a args IH]; simpl; [reflexivity|].
  intros [Ha Hargs]%andb_prop. rewrite Ha. simpl. auto.
Qed.

Lemma positionalArgs_single s :
  startsWith s "-" = false -> positionalArgs [s] = [s].
Proof.
  intros H. unfold positionalArgs. simpl.
  rewrite H, (startsWith_dash2 _ H). reflexivity.
Qed.

Lemma helpFlag_single s : startsWith s "-" = false -> helpFlag [s] = false.
Proof.
  unfold helpFlag, includes. cbn [existsb]. intros H.
  destruct (String.eqb_spec "--help" s) as [<-|]; [discriminate H|].
  destruct (String.eqb_spec "-h" s) as [<-|]; [discriminate H|].
  reflexivity.
Qed.

(** ** Truthiness *)

Lemma truthy_nonempty s : s <> "" -> truthy (Some s) = true.
Proof. simpl. destruct (String.eqb_spec s ""); [contradiction|reflexivity]. Qed.

(** A string the pattern accepts is not empty. *)
Lemma VAAM_URL_PATTERN_test_truthy s :
  VAAM_URL_PATTERN_test s = true -> truthy (Some s) = true.
Proof. destruct s; [discriminate|reflexivity]. Qed.

Lemma extractCaptureId_truthy vaamUrl captureId :
  extractCaptureId vaamUrl = Some captureId -> truthy (Some captureId) = true.
Proof.
  unfold extractCaptureId, VAAM_URL_PATTERN_match.
  destruct (strip_prefix SHARE_PREFIX vaamUrl) as [id|]; [|discriminate].
  destruct (negb (String.eqb id "")) eqn:Hid; simpl; [|discriminate].
  destruct (all_chars is_id_char id); [|discriminate].
  intros [= <-]. exact Hid.
Qed.

Lemma extractCaptureId_test vaamUrl captureId :
  extractCaptureId vaamUrl = Some captureId -> VAAM_URL_PATTERN_test vaamUrl = true.
Proof.
  unfold extractCaptureId, VAAM_URL_PATTERN_test. intros ->. reflexivity.
Qed.

Lemma test_extractCaptureId vaamUrl :
  VAAM_URL_PATTERN_test vaamUrl = true ->
  exists captureId, extractCaptureId vaamUrl = Some captureId.
Proof.
  unfold extractCaptureId, VAAM_URL_PATTERN_test.
  destruct (VAAM_URL_PATTERN_match vaamUrl) as [id|]; [eauto|discriminate].
Qed.

Lemma js_or_null a u : js_or a None = Some u -> truthy (Some u) = true.
Proof.
  unfold js_or. destruct (truthy a) eqn:Ha; [|discriminate].
  intros <-. exact Ha.
Qed.

(** What [select_url] returns is [null] or a non-empty string. *)
Lemma select_url_truthy data u :
  select_url data = Some u -> truthy (Some u) = true.
Proof. apply js_or_null. Qed.

(** The facts that let a run past the three validation steps. *)
Lemma entry_facts vaamUrl captureId apiKey :
  extractCaptureId vaamUrl = Some captureId -> apiKey <> "" ->
  truthy (Some vaamUrl) = true /\ VAAM_URL_PATTERN_test vaamUrl = true /\
  truthy (Some captureId) = true /\ truthy (Some apiKey) = true.
Proof.
  intros Hid Hkey. pose proof (extractCaptureId_test _ _ Hid).
  repeat split.
  - apply VAAM_URL_PATTERN_test_truthy. assumption.
  - assumption.
  - eapply extractCaptureId_truthy. eassumption.
  - apply truthy_nonempty. assumption.
Qed.

(** ** Runs that stop during validation *)

Section Validation.
Variable w : world.
Hypothesis no_help : helpFlag (argv w) = false.

Lemma run_missing_argument :
  truthy (head (positionalArgs (argv w))) = false ->
  run w = Exited 1
    {| stdout := [JSON_stringify missing_argument_error];
       fs := files w;
       verbose := verboseFlag (argv w);
       tempFilePath := None |}.
Proof.
  intros H. crank.
  destruct (head (positionalArgs (argv w))) as [s|]; crank; reflexivity.
Qed.

Variable vaamUrl : string.
Hypothesis first_positional : head (positionalArgs (argv w)) = Some vaamUrl.

Lemma run_invalid_url :
  vaamUrl <> "" ->
  VAAM_URL_PATTERN_test vaamUrl = false ->
  run w = Exited 1
    {| stdout := [JSON_stringify (invalid_url_error vaamUrl)];
       fs := files w;
       verbose := verboseFlag (argv w);
       tempFilePath := None |}.
Proof.
  intros Hne%truthy_nonempty Htest. crank. reflexivity.
Qed.

Lemma run_missing_api_key :
  VAAM_URL_PATTERN_test vaamUrl = true ->
  truthy (GEMINI_API_KEY w) = false ->
  run w = Exited 1
    {| stdout := [JSON_stringify missing_api_key_error];
       fs := files w;
       verbose := verboseFlag (argv w);
       tempFilePath := None |}.
Proof.
  intros Htest Hkey. pose proof (VAAM_URL_PATTERN_test_truthy _ Htest).
  crank. destruct (GEMINI_API_KEY w) as [k|]; crank; reflexivity.
Qed.
End Validation.

(** With a help flag the usage text is all there is. *)
Lemma run_help w :
  helpFlag (argv w) = true ->
  run w = Exited 0
    {| stdout := [help]; fs := files w; verbose := false;
       tempFilePath := None |}.
Proof. intros H. crank. reflexivity. Qed.

(** ** Runs that reach the pipeline *)

Section Pipeline.
Variable w : world.
Variables vaamUrl captureId apiKey : string.
Hypothesis no_help : helpFlag (argv w) = false.
Hypothesis first_positional : head (positionalArgs (argv w)) = Some vaamUrl.
Hypothesis captured : extractCaptureId vaamUrl = Some captureId.
Hypothesis has_key : GEMINI_API_KEY w = Some apiKey.
Hypothesis key_nonempty : apiKey <> "".

(** *** The lookup *)

(** The request is rejected (no network, no such host): the rejection
    leaves [main] and reaches the top-level handler. *)
Lemma main_lookup_rejected reason :
  fetch w (api_url captureId) = Rejected reason ->
  main w (start w) = Thrown reason
    {| stdout :=
         progress (verboseFlag (argv w))
           ["Processing Vaam URL: " +:+ vaamUrl;
            "Fetching video URL from Vaam API..."];
       fs := files w;
       verbose := verboseFlag (argv w);
       tempFilePath := None |}.
Proof.
  intros Hfetch.
  destruct (entry_facts _ _ _ captured key_nonempty) as (? & ? & ? & ?).
  pipeline w.
Qed.

Lemma run_lookup_rejected reason :
  fetch w (api_url captureId) = Rejected reason ->
  run w = Exited 2
    {| stdout :=
         progress (verboseFlag (argv w))
           ["Processing Vaam URL: " +:+ vaamUrl;
            "Fetching video URL from Vaam API..."]
         ++ [JSON_stringify (unexpected_error reason)];
       fs := files w;
       verbose := verboseFlag (argv w);
       tempFilePath := None |}.
Proof.
  intros Hfetch.
  destruct (entry_facts _ _ _ captured key_nonempty) as (? & ? & ? & ?).
  pipeline w.
Qed.

Variable lookup : Response.
Hypothesis lookup_answers : fetch w (api_url captureId) = Fulfilled lookup.

(** The endpoint answers with a non-success status. *)
Lemma run_lookup_not_ok :
  ok lookup = false ->
  run w = Exited 2
    {| stdout :=
         progress (verboseFlag (argv w))
           ["Processing Vaam URL: " +:+ vaamUrl;
            "Fetching video URL from Vaam API..."]
         ++ [JSON_stringify (extraction_failed_error vaamUrl)];
       fs := files w;
       verbose := verboseFlag (argv w);
       tempFilePath := None |}.
Proof.
  intros Hok.
  destruct (entry_facts _ _ _ captured key_nonempty) as (? & ? & ? & ?).
  pipeline w.
Qed.

Hypothesis lookup_ok : ok lookup = true.

(** The body is not JSON. *)
Lemma run_lookup_unparseable reason :
  json lookup = Rejected reason ->
  run w = Exited 2
    {| stdout :=
         progress (verboseFlag (argv w))
           ["Processing Vaam URL: " +:+ vaamUrl;
            "Fetching video URL from Vaam API..."]
         ++ [JSON_stringify (unexpected_error reason)];
       fs := files w;
       verbose := verboseFlag (argv w);
       tempFilePath := None |}.
Proof.
  intros Hjson.
  destruct (entry_facts _ _ _ captured key_nonempty) as (? & ? & ? & ?).
  pipeline w.
Qed.

(** The body is a falsy JSON value: two error objects are written. *)
Lemma run_lookup_no_payload :
  json lookup = Fulfilled None ->
  run w = Exited 2
    {| stdout :=
         progress (verboseFlag (argv w))
           ["Processing Vaam URL: " +:+ vaamUrl;
            "Fetching video URL from Vaam API..."]
         ++ [JSON_stringify no_payload_error;
             JSON_stringify (extraction_failed_error vaamUrl)];
       fs := files w;
       verbose := verboseFlag (argv w);
       tempFilePath := None |}.
Proof.
  intros Hjson.
  destruct (entry_facts _ _ _ captured key_nonempty) as (? & ? & ? & ?).
  pipeline w.
Qed.

Variable data : CapturePaths.
Hypothesis payload : json lookup = Fulfilled (Some data).

(** The stage itself returns the selected URL. *)
Lemma extractVideoUrl_selects p :
  extractVideoUrl w vaamUrl p =
  Normal (select_url data)
    {| stdout :=
         stdout p ++ progress (verbose p) ["Fetching video URL from Vaam API..."];
       fs := fs p; verbose := verbose p; tempFilePath := tempFilePath p |}.
Proof.
  pose proof (extractCaptureId_truthy _ _ captured).
  destruct p as [out f v t]. crank.
  destruct v; crank; [reflexivity|]. rewrite app_nil_r. reflexivity.
Qed.

(** No field holds a usable URL. *)
Lemma run_no_playable_url :
  select_url data = None ->
  run w = Exited 2
    {| stdout :=
         progress (verboseFlag (argv w))
           ["Processing Vaam URL: " +:+ vaamUrl;
            "Fetching video URL from Vaam API..."]
         ++ [JSON_stringify (extraction_failed_error vaamUrl)];
       fs := files w;
       verbose := verboseFlag (argv w);
       tempFilePath := None |}.
Proof.
  intros Hsel.
  destruct (entry_facts _ _ _ captured key_nonempty) as (? & ? & ? & ?).
  pipeline w.
Qed.

Variable videoUrl : string.
Hypothesis selected : select_url data = Some videoUrl.

(** *** The download *)

Lemma run_mkdir_rejected reason :
  mkdir w (TEMP_DIR w) = Rejected reason ->
  run w = Exited 2
    {| stdout :=
         progress (verboseFlag (argv w))
           ["Processing Vaam URL: " +:+ vaamUrl;
            "Fetching video URL from Vaam API...";
            "Video URL: " +:+ videoUrl]
         ++ [JSON_stringify (download_failed_error reason)];
       fs := files w;
       verbose := verboseFlag (argv w);
       tempFilePath := None |}.
Proof.
  intros Hmkdir.
  destruct (entry_facts _ _ _ captured key_nonempty) as (? & ? & ? & ?).
  pose proof (select_url_truthy _ _ selected).
  pipeline w.
Qed.

Hypothesis mkdir_ok : mkdir w (TEMP_DIR w) = Fulfilled tt.

Lemma run_media_rejected reason :
  fetch w videoUrl = Rejected reason ->
  run w = Exited 2
    {| stdout :=
         progress (verboseFlag (argv w)) (download_progress w vaamUrl videoUrl)
         ++ [JSON_stringify (download_failed_error reason)];
       fs := files w;
       verbose := verboseFlag (argv w);
       tempFilePath := None |}.
Proof.
  intros Hmedia.
  destruct (entry_facts _ _ _ captured key_nonempty) as (? & ? & ? & ?).
  pose proof (select_url_truthy _ _ selected).
  pipeline w.
Qed.

Variable media : Response.
Hypothesis media_answers : fetch w videoUrl = Fulfilled media.

Lemma run_media_not_ok :
  ok media = false ->
  run w = Exited 2
    {| stdout :=
         progress (verboseFlag (argv w)) (download_progress w vaamUrl videoUrl)
         ++ [JSON_stringify
               (download_failed_error
                  ("HTTP " +:+ decimal (status media) +:+ ": "
                   +:+ statusText media))];
       fs := files w;
       verbose := verboseFlag (argv w);
       tempFilePath := None |}.
Proof.
  intros Hok.
  destruct (entry_facts _ _ _ captured key_nonempty) as (? & ? & ? & ?).
  pose proof (select_url_truthy _ _ selected).
  pipeline w.
Qed.

Hypothesis media_ok : ok media = true.

Lemma run_media_body_rejected reason :
  arrayBuffer media = Rejected reason ->
  run w = Exited 2
    {| stdout :=
         progress (verboseFlag (argv w)) (download_progress w vaamUrl videoUrl)
         ++ [JSON_stringify (download_failed_error reason)];
       fs := files w;
       verbose := verboseFlag (argv w);
       tempFilePath := None |}.
Proof.
  intros Hbody.
  destruct (entry_facts _ _ _ captured key_nonempty) as (? & ? & ? & ?).
  pose proof (select_url_truthy _ _ selected).
  pipeline w.
Qed.

Variable video : list Byte.byte.
Hypothesis media_body : arrayBuffer media = Fulfilled video.

Lemma run_write_rejected reason :
  Bun_write w (temp_path w) video = Rejected reason ->
  run w = Exited 2
    {| stdout :=
         progress (verboseFlag (argv w)) (download_progress w vaamUrl videoUrl)
         ++ [JSON_stringify (download_failed_error reason)];
       fs := files w;
       verbose := verboseFlag (argv w);
       tempFilePath := None |}.
Proof.
  intros Hwrite. unfold temp_path in Hwrite.
  destruct (entry_facts _ _ _ captured key_nonempty) as (? & ? & ? & ?).
  pose proof (select_url_truthy _ _ selected).
  pipeline w.
Qed.

Hypothesis written : Bun_write w (temp_path w) video = Fulfilled tt.

(** *** The transcription *)

Lemma run_transcription_rejected reason :
  generateContent w apiKey GEMINI_MODEL video prompt = Rejected reason ->
  run w = Exited 2
    {| stdout :=
         progress (verboseFlag (argv w))
           (transcription_progress w vaamUrl videoUrl video)
         ++ [JSON_stringify (transcription_failed_error reason)];
       fs := <[temp_path w := video]> (files w);
       verbose := verboseFlag (argv w);
       tempFilePath := Some (temp_path w) |}.
Proof.
  intros Hgemini. pose proof written as Hwrite. unfold temp_path in Hwrite.
  destruct (entry_facts _ _ _ captured key_nonempty) as (? & ? & ? & ?).
  pose proof (select_url_truthy _ _ selected).
  pipeline w.
Qed.

Lemma run_success text :
  generateContent w apiKey GEMINI_MODEL video prompt = Fulfilled text ->
  run w = Exited 0
    {| stdout :=
         progress (verboseFlag (argv w))
           (success_progress w vaamUrl videoUrl video text)
         ++ [text];
       fs := <[temp_path w := video]> (files w);
       verbose := verboseFlag (argv w);
       tempFilePath := Some (temp_path w) |}.
Proof.
  intros Hgemini. pose proof written as Hwrite. unfold temp_path in Hwrite.
  destruct (entry_facts _ _ _ captured key_nonempty) as (? & ? & ? & ?).
  pose proof (select_url_truthy _ _ selected).
  pipeline w.
Qed.
End Pipeline.

(** ** Cleanup *)

(** [cleanup] never throws and never exits. *)
Lemma cleanup_returns p :
  exists p', cleanup p = Normal tt p' /\
             verbose p' = verbose p /\ tempFilePath p' = tempFilePath p.
Proof.
  destruct p as [out f v [path|]]; crank; [|eauto].
  destruct (truthy (Some path)); [|eauto].
  destruct (f !! path); [|eauto]. destruct v; eauto.
Qed.

(** With no temporary path recorded, [cleanup] does nothing. *)
Lemma cleanup_without_path p : tempFilePath p = None -> cleanup p = Normal tt p.
Proof. destruct p as [out f v t]. simpl. intros ->. reflexivity. Qed.

(** A [finally] block is not run once the body has called
    [process.exit]. *)
Lemma exit_skips_finally {A : Type} (c : Z) (fin : M unit) p :
  try_finally (process_exit (A := A) c) fin p = Exited c p.
Proof. reflexivity. Qed.

Lemma exit_skips_catch {A : Type} (c : Z) (handler : string -> M A) p :
  try_catch (process_exit c) handler p = Exited c p.
Proof. reflexivity. Qed.

(** Whenever all stages succeed, the downloaded file is still there
    when the process has exited. *)
Lemma success_leaves_temp_file w text :
  all_stages_succeed w text ->
  exit_status (run w) = 0 /\
  tempFilePath (final (run w)) = Some (temp_path w) /\
  exists video, fs (final (run w)) !! temp_path w = Some video.
Proof.
  intros [].
  erewrite run_success by eassumption. simpl.
  repeat split. eexists. apply lookup_insert_eq.
Qed.

(** No run deletes the file it downloaded: whenever a run ends with a
    temporary path recorded, the file at that path exists in the file
    system the process leaves behind. *)
Lemma recorded_temp_file_survives w path :
  tempFilePath (final (run w)) = Some path ->
  is_Some (fs (final (run w)) !! path).
Proof.
  destruct (helpFlag (argv w)) eqn:Hhelp;
    [rewrite (run_help w Hhelp); discriminate|].
  destruct (truthy (head (positionalArgs (argv w)))) eqn:Harg;
    [|rewrite (run_missing_argument w Hhelp Harg); discriminate].
  destruct (head (positionalArgs (argv w))) as [vaamUrl|] eqn:Hfirst;
    [|discriminate Harg].
  assert (Hne : vaamUrl <> "") by (intros ->; discriminate Harg).
  destruct (VAAM_URL_PATTERN_test vaamUrl) eqn:Htest;
    [|rewrite (run_invalid_url w Hhelp vaamUrl Hfirst Hne Htest); discriminate].
  destruct (truthy (GEMINI_API_KEY w)) eqn:Hkey;
    [|rewrite (run_missing_api_key w Hhelp vaamUrl Hfirst Htest Hkey);
      discriminate].
  destruct (GEMINI_API_KEY w) as [apiKey|] eqn:Hhas; [|discriminate Hkey].
  assert (Hkne : apiKey <> "") by (intros ->; discriminate Hkey).
  destruct (test_extractCaptureId _ Htest) as [captureId Hid].
  destruct (fetch w (api_url captureId)) as [lookup|reason] eqn:Hlookup;
    [|erewrite run_lookup_rejected by eassumption; discriminate].
  destruct (ok lookup) eqn:Hok;
    [|erewrite run_lookup_not_ok by eassumption; discriminate].
  destruct (json lookup) as [[data|]|reason] eqn:Hjson;
    [|erewrite run_lookup_no_payload by eassumption; discriminate
     |erewrite run_lookup_unparseable by eassumption; discriminate].
  destruct (select_url data) as [videoUrl|] eqn:Hsel;
    [|erewrite run_no_playable_url by eassumption; discriminate].
  destruct (mkdir w (TEMP_DIR w)) as [[]|reason] eqn:Hmkdir;
    [|erewrite run_mkdir_rejected by eassumption; discriminate].
  destruct (fetch w videoUrl) as [media|reason] eqn:Hmedia;
    [|erewrite run_media_rejected by eassumption; discriminate].
  destruct (ok media) eqn:Hmok;
    [|erewrite run_media_not_ok by eassumption; discriminate].
  destruct (arrayBuffer media) as [video|reason] eqn:Hbody;
    [|erewrite run_media_body_rejected by eassumption; discriminate].
  destruct (Bun_write w (temp_path w) video) as [[]|reason] eqn:Hwrite;
    [|erewrite run_write_rejected by eassumption; discriminate].
  destruct (generateContent w apiKey GEMINI_MODEL video prompt)
    as [text|reason] eqn:Hgemini.
  - erewrite run_success by eassumption. simpl.
    intros [= <-]. rewrite lookup_insert_eq. eauto.
  - erewrite run_transcription_rejected by eassumption. simpl.
    intros [= <-]. rewrite lookup_insert_eq. eauto.
Qed.

(** * The claims of the specification *)

(** C1 (the temporary file is gone on every terminal path): fails on
    the successful path.  For the sample share link, with every stage
    succeeding, the run exits with status 0, the temporary path did not
    exist before, and it holds the downloaded video after the process
    has exited: [process.exit(0)] ends the process inside the [try]
    block, so the [finally] block with [cleanup] is never entered. *)
Theorem temp_file_left_behind :
  files (happy_world [share_url]) !! temp_path (happy_world [share_url]) = None /\
  exit_status (run (happy_world [share_url])) = 0 /\
  stdout (final (run (happy_world [share_url]))) = ["Hello from the video."] /\
  tempFilePath (final (run (happy_world [share_url])))
    = Some (temp_path (happy_world [share_url])) /\
  fs (final (run (happy_world [share_url]))) !! temp_path (happy_world [share_url])
    = Some sample_video.
Proof. vm_compute. repeat split; reflexivity. Qed.

(** C2, as stated, is false: with the credential unset and a malformed
    URL as positional argument, the run reports INVALID_URL, not
    MISSING_API_KEY. *)
Lemma url_check_precedes_key_check :
  positionalArgs (argv bad_url_no_key_world) = ["not-a-url"] /\
  GEMINI_API_KEY bad_url_no_key_world = None /\
  stdout (final (run bad_url_no_key_world))
    = [JSON_stringify (invalid_url_error "not-a-url")] /\
  exit_status (run bad_url_no_key_world) = 1 /\
  ~ reports (run bad_url_no_key_world) MISSING_API_KEY.
Proof.
  assert (Hout : stdout (final (run bad_url_no_key_world))
                 = [JSON_stringify (invalid_url_error "not-a-url")])
    by (vm_compute; reflexivity).
  repeat split; try reflexivity; try exact Hout.
  intros Hrep.
  apply (reports_single _ INVALID_URL _ _ _ MISSING_API_KEY Hout) in Hrep.
  discriminate Hrep.
Qed.

(** C2, amended: for every invocation without a help flag whose first
    positional argument matches the share-URL pattern, and with
    GEMINI_API_KEY unset or empty, the program writes the
    MISSING_API_KEY error object, and nothing else, and exits with
    code 1. *)
Theorem missing_api_key_reported (w : world) (vaamUrl : string) :
  helpFlag (argv w) = false ->
  head (positionalArgs (argv w)) = Some vaamUrl ->
  VAAM_URL_PATTERN_test vaamUrl = true ->
  truthy (GEMINI_API_KEY w) = false ->
  stdout (final (run w)) = [JSON_stringify missing_api_key_error] /\
  exit_status (run w) = 1 /\
  reports (run w) MISSING_API_KEY.
Proof.
  intros Hhelp Hfirst Htest Hkey.
  rewrite (run_missing_api_key w Hhelp vaamUrl Hfirst Htest Hkey). simpl.
  repeat split. eapply reports_intro with (before := []). reflexivity.
Qed.

Lemma missing_api_key_reported_witness :
  GEMINI_API_KEY no_key_world = None /\
  stdout (final (run no_key_world)) = [JSON_stringify missing_api_key_error] /\
  exit_status (run no_key_world) = 1 /\
  reports (run no_key_world) MISSING_API_KEY.
Proof.
  split; [reflexivity|].
  apply (missing_api_key_reported no_key_world share_url); reflexivity.
Defined.

(** C3 (a failing run writes exactly one error object): fails when the
    lookup endpoint answers 200 with a falsy JSON body such as [null].
    Standard output then holds two error objects, VIDEO_DOWNLOAD_FAILED
    written inside [extractVideoUrl] and VIDEO_EXTRACTION_FAILED
    written by [main]. *)
Theorem falsy_payload_reported_twice :
  stdout (final (run null_body_world))
    = [JSON_stringify no_payload_error;
       JSON_stringify (extraction_failed_error share_url)] /\
  code (error no_payload_error) = VIDEO_DOWNLOAD_FAILED /\
  code (error (extraction_failed_error share_url)) = VIDEO_EXTRACTION_FAILED /\
  exit_status (run null_body_world) = 2.
Proof. vm_compute. repeat split; reflexivity. Qed.

(** C4, as stated, is false: with [--verbose] every stage succeeds and
    standard output holds eight progress lines before the transcript. *)
Lemma verbose_success_prints_progress :
  all_stages_succeed (happy_world ["--verbose"; share_url]) "Hello from the video." /\
  exit_status (run (happy_world ["--verbose"; share_url])) = 0 /\
  length (stdout (final (run (happy_world ["--verbose"; share_url])))) = 9%nat /\
  stdout (final (run (happy_world ["--verbose"; share_url])))
    <> ["Hello from the video."].
Proof.
  split; [|split; [|split]].
  - apply (stages_succeed _ _ share_url "abc123" "key" "https://cdn.example/v.mp4"
             {| ok := true; status := 200; statusText := "OK";
                json := Fulfilled (Some sample_paths);
                arrayBuffer := Fulfilled sample_video |}
             {| ok := true; status := 200; statusText := "OK";
                json := Rejected "Unexpected token";
                arrayBuffer := Fulfilled sample_video |}
             sample_paths sample_video);
      solve [reflexivity | discriminate].
  - reflexivity.
  - vm_compute. reflexivity.
  - vm_compute. discriminate.
Qed.

(** C4, amended: for every invocation in which all stages succeed the
    process exits with code 0 and the transcript is the last line of
    standard output; without the verbose flag it is the only line,
    with the verbose flag the progress lines come before it. *)
Theorem success_prints_transcript (w : world) (text : string) :
  all_stages_succeed w text ->
  exit_status (run w) = 0 /\
  exists lines,
    stdout (final (run w)) = progress (verboseFlag (argv w)) lines ++ [text].
Proof.
  intros [].
  erewrite run_success by eassumption. simpl. eauto.
Qed.

Lemma success_prints_transcript_witness :
  verboseFlag (argv (happy_world [share_url])) = false /\
  exit_status (run (happy_world [share_url])) = 0 /\
  exists lines,
    stdout (final (run (happy_world [share_url])))
    = progress false lines ++ ["Hello from the video."].
Proof.
  split; [reflexivity|].
  apply (success_prints_transcript (happy_world [share_url]) "Hello from the video.").
  apply (stages_succeed _ _ share_url "abc123" "key" "https://cdn.example/v.mp4"
           {| ok := true; status := 200; statusText := "OK";
              json := Fulfilled (Some sample_paths);
              arrayBuffer := Fulfilled sample_video |}
           {| ok := true; status := 200; statusText := "OK";
              json := Rejected "Unexpected token";
              arrayBuffer := Fulfilled sample_video |}
           sample_paths sample_video);
    solve [reflexivity | discriminate].
Defined.

(** C5, as stated, is false: the string [-x] does not match the
    pattern, yet the run with it as sole argument reports
    MISSING_ARGUMENT, not INVALID_URL. *)
Lemma dash_string_is_not_validated :
  argv dash_world = ["-x"] /\
  VAAM_URL_PATTERN_test "-x" = false /\
  stdout (final (run dash_world)) = [JSON_stringify missing_argument_error] /\
  exit_status (run dash_world) = 1 /\
  ~ reports (run dash_world) INVALID_URL.
Proof.
  assert (Hout : stdout (final (run dash_world))
                 = [JSON_stringify missing_argument_error])
    by (vm_compute; reflexivity).
  repeat split; try reflexivity; try exact Hout.
  intros Hrep.
  apply (reports_single _ MISSING_ARGUMENT _ _ _ INVALID_URL Hout) in Hrep.
  discriminate Hrep.
Qed.

(** C5, amended: for every non-empty input string that does not begin
    with [-] and does not match the pattern, running the tool with that
    string as its argument writes the INVALID_URL error object, and
    nothing else, and exits with code 1. *)
Theorem invalid_url_reported (w : world) (s : string) :
  argv w = [s] ->
  s <> "" ->
  startsWith s "-" = false ->
  VAAM_URL_PATTERN_test s = false ->
  stdout (final (run w)) = [JSON_stringify (invalid_url_error s)] /\
  exit_status (run w) = 1 /\
  reports (run w) INVALID_URL.
Proof.
  intros Hargv Hne Hdash Htest.
  assert (Hhelp : helpFlag (argv w) = false)
    by (rewrite Hargv; apply helpFlag_single, Hdash).
  assert (Hfirst : head (positionalArgs (argv w)) = Some s)
    by (rewrite Hargv, (positionalArgs_single _ Hdash); reflexivity).
  rewrite (run_invalid_url w Hhelp s Hfirst Hne Htest). simpl.
  repeat split. eapply reports_intro with (before := []). reflexivity.
Qed.

Lemma invalid_url_reported_witness :
  VAAM_URL_PATTERN_test "http://app.vaam.io/share/abc123" = false /\
  stdout (final (run bad_url_world))
    = [JSON_stringify (invalid_url_error "http://app.vaam.io/share/abc123")] /\
  exit_status (run bad_url_world) = 1 /\
  reports (run bad_url_world) INVALID_URL.
Proof.
  split; [reflexivity|].
  apply (invalid_url_reported bad_url_world "http://app.vaam.io/share/abc123");
    solve [reflexivity | discriminate].
Defined.

(** C6, as stated, is false: in a payload whose mp4 field is present
    but empty, mp4 is the first present field, yet the webm URL is
    selected. *)
Lemma empty_mp4_is_skipped :
  first_present blank_mp4 = Some "" /\
  select_url blank_mp4 = Some "https://cdn.example/v.webm" /\
  select_url blank_mp4 <> first_present blank_mp4.
Proof. repeat split; try reflexivity. discriminate. Qed.

(** C6, amended: for every payload, the selected media URL is the
    first field, in the order mp4, webm, hls, that is present and not
    the empty string; in particular a payload with only a non-empty
    hls field yields the hls URL, and a payload with no such field
    yields [null]. *)
Theorem select_url_first_nonempty :
  (forall data, select_url data = first_present (blank_as_absent data)) /\
  (forall c url,
     select_url {| mp4 := None; webm := None; hls := Some (String c url) |}
     = Some (String c url)) /\
  select_url {| mp4 := None; webm := None; hls := None |} = None.
Proof.
  split; [|split; reflexivity].
  intros [[[|? ?]|] [[|? ?]|] [[|? ?]|]]; reflexivity.
Qed.

(** C7 (a failing lookup request yields VIDEO_EXTRACTION_FAILED): fails
    when the request itself is rejected.  The rejection is caught
    nowhere in [extractVideoUrl] or [main]; the top-level handler
    reports it as TRANSCRIPTION_FAILED. *)
Theorem rejected_lookup_is_unexpected :
  fetch offline_world (api_url "abc123") = Rejected offline_reason /\
  stdout (final (run offline_world))
    = [JSON_stringify (unexpected_error offline_reason)] /\
  exit_status (run offline_world) = 2 /\
  reports (run offline_world) TRANSCRIPTION_FAILED /\
  ~ reports (run offline_world) VIDEO_EXTRACTION_FAILED.
Proof.
  assert (Hout : stdout (final (run offline_world))
                 = [JSON_stringify (unexpected_error offline_reason)])
    by (vm_compute; reflexivity).
  repeat split; try reflexivity; try exact Hout.
  - eapply reports_intro with (before := []). exact Hout.
  - intros Hrep.
    apply (reports_single _ TRANSCRIPTION_FAILED _ _ _ VIDEO_EXTRACTION_FAILED Hout)
      in Hrep.
    discriminate Hrep.
Qed.

(** The two cases of C7 that the code does handle: a non-success
    status and a payload without a usable URL are reported as
    VIDEO_EXTRACTION_FAILED, with exit code 2. *)
Lemma extraction_failure_reported w vaamUrl captureId apiKey lookup :
  helpFlag (argv w) = false ->
  head (positionalArgs (argv w)) = Some vaamUrl ->
  extractCaptureId vaamUrl = Some captureId ->
  GEMINI_API_KEY w = Some apiKey -> apiKey <> "" ->
  fetch w (api_url captureId) = Fulfilled lookup ->
  ok lookup = false \/
  (ok lookup = true /\
   exists data, json lookup = Fulfilled (Some data) /\ select_url data = None) ->
  reports (run w) VIDEO_EXTRACTION_FAILED /\ exit_status (run w) = 2.
Proof.
  intros Hhelp Hfirst Hid Hkey Hne Hfetch [Hok|(Hok & data & Hjson & Hsel)].
  - erewrite run_lookup_not_ok by eassumption. simpl. split; [|reflexivity].
    eapply reports_intro. reflexivity.
  - erewrite run_no_playable_url by eassumption. simpl. split; [|reflexivity].
    eapply reports_intro. reflexivity.
Qed.

(** C8: whenever an error leaves [main] (no stage handler turned it
    into a report), the top-level handler first runs [cleanup], which
    returns, then writes a TRANSCRIPTION_FAILED error object carrying
    the error's message, and the process exits with code 2. *)
Theorem unexpected_error_handled (w : world) (reason : string) (p : process) :
  main w (start w) = Thrown reason p ->
  exists p',
    cleanup p = Normal tt p' /\
    run w = Exited 2
      {| stdout := stdout p' ++ [JSON_stringify (unexpected_error reason)];
         fs := fs p';
         verbose := verbose p';
         tempFilePath := tempFilePath p' |} /\
    reports (run w) TRANSCRIPTION_FAILED /\
    exit_status (run w) = 2.
Proof.
  intros Hmain. destruct (cleanup_returns p) as (p' & Hclean & _).
  exists p'. split; [exact Hclean|].
  assert (Hrun : run w = Exited 2
      {| stdout := stdout p' ++ [JSON_stringify (unexpected_error reason)];
         fs := fs p'; verbose := verbose p';
         tempFilePath := tempFilePath p' |}).
  { unfold run, script, try_catch. rewrite Hmain.
    unfold on_rejection, mbind, M_bind. rewrite Hclean. reflexivity. }
  rewrite Hrun. simpl. repeat split.
  eapply reports_intro. reflexivity.
Qed.

Lemma unexpected_error_handled_witness :
  main offline_world (start offline_world)
    = Thrown offline_reason (start offline_world) /\
  run offline_world = Exited 2
    {| stdout := [JSON_stringify (unexpected_error offline_reason)];
       fs := ∅; verbose := false; tempFilePath := None |} /\
  reports (run offline_world) TRANSCRIPTION_FAILED /\
  exit_status (run offline_world) = 2.
Proof.
  assert (Hmain : main offline_world (start offline_world)
                  = Thrown offline_reason (start offline_world))
    by reflexivity.
  split; [exact Hmain|].
  destruct (unexpected_error_handled offline_world offline_reason
              (start offline_world) Hmain)
    as (p' & Hclean & Hrun & Hrep & Hexit).
  rewrite cleanup_without_path in Hclean by reflexivity.
  injection Hclean as <-.
  repeat split; assumption.
Defined.

(** C9: when every argument begins with [-] and none is a help flag,
    no argument is positional: the run writes the MISSING_ARGUMENT
    error object, and nothing else, exits with code 1, and does not
    report INVALID_URL. *)
Theorem dash_arguments_are_flags (w : world) :
  forallb (fun arg => startsWith arg "-") (argv w) = true ->
  helpFlag (argv w) = false ->
  positionalArgs (argv w) = [] /\
  stdout (final (run w)) = [JSON_stringify missing_argument_error] /\
  exit_status (run w) = 1 /\
  reports (run w) MISSING_ARGUMENT /\
  ~ reports (run w) INVALID_URL.
Proof.
  intros Hflags Hhelp.
  pose proof (positionalArgs_flags _ Hflags) as Hpos.
  assert (Hrun := run_missing_argument w Hhelp).
  rewrite Hpos in Hrun. specialize (Hrun eq_refl).
  assert (Hout : stdout (final (run w)) = [JSON_stringify missing_argument_error])
    by (rewrite Hrun; reflexivity).
  split; [exact Hpos|]. split; [exact Hout|].
  split; [rewrite Hrun; reflexivity|]. split.
  - eapply reports_intro with (before := []). exact Hout.
  - intros Hrep.
    apply (reports_single _ MISSING_ARGUMENT _ _ _ INVALID_URL Hout) in Hrep.
    discriminate Hrep.
Qed.

Lemma dash_arguments_are_flags_witness :
  argv flags_only_world = ["-v"; "--fast"] /\
  positionalArgs (argv flags_only_world) = [] /\
  stdout (final (run flags_only_world))
    = [JSON_stringify missing_argument_error] /\
  exit_status (run flags_only_world) = 1 /\
  reports (run flags_only_world) MISSING_ARGUMENT /\
  ~ reports (run flags_only_world) INVALID_URL.
Proof.
  split; [reflexivity|].
  apply (dash_arguments_are_flags flags_only_world); reflexivity.
Defined.

(** C10: a field that holds the empty string counts as absent.  For a
    lookup that answers with the payload [data], [extractVideoUrl]
    returns the first field, in the order mp4, webm, hls, that is
    present and not empty: with an empty mp4 field it returns the webm
    URL, and the hls URL when webm is absent or empty too; an empty
    webm field is passed over in the same way, and does not stand in
    the way of mp4.  With all three fields empty it returns [null],
    its signal of failure, on which the run reports
    VIDEO_EXTRACTION_FAILED and exits with code 2. *)
Theorem empty_field_is_absent
    (w : world) (vaamUrl captureId : string) (lookup : Response)
    (data : CapturePaths) (p : process) :
  extractCaptureId vaamUrl = Some captureId ->
  fetch w (api_url captureId) = Fulfilled lookup ->
  ok lookup = true ->
  json lookup = Fulfilled (Some data) ->
  exists selected,
    extractVideoUrl w vaamUrl p =
      Normal selected
        {| stdout :=
             stdout p
             ++ progress (verbose p) ["Fetching video URL from Vaam API..."];
           fs := fs p; verbose := verbose p; tempFilePath := tempFilePath p |} /\
    selected = first_present (blank_as_absent data) /\
    (mp4 data = Some "" ->
     forall c url, webm data = Some (String c url) ->
     selected = Some (String c url)) /\
    (mp4 data = Some "" -> webm data = None \/ webm data = Some "" ->
     forall c url, hls data = Some (String c url) ->
     selected = Some (String c url)) /\
    (webm data = Some "" ->
     forall c url, mp4 data = Some (String c url) ->
     selected = Some (String c url)) /\
    (webm data = Some "" -> mp4 data = None ->
     forall c url, hls data = Some (String c url) ->
     selected = Some (String c url)) /\
    (data = all_blank -> selected = None) /\
    (data = all_blank ->
     helpFlag (argv w) = false ->
     head (positionalArgs (argv w)) = Some vaamUrl ->
     forall apiKey, GEMINI_API_KEY w = Some apiKey -> apiKey <> "" ->
     reports (run w) VIDEO_EXTRACTION_FAILED /\ exit_status (run w) = 2).
Proof.
  intros Hid Hfetch Hok Hjson. exists (select_url data).
  split; [exact (extractVideoUrl_selects w vaamUrl captureId Hid lookup
                   Hfetch Hok data Hjson p)|].
  split; [destruct data as [[[|? ?]|] [[|? ?]|] [[|? ?]|]]; reflexivity|].
  split; [destruct data as [m wb h]; simpl; intros -> c url ->; reflexivity|].
  split; [destruct data as [m wb h]; simpl;
          intros -> [->| ->] c url ->; reflexivity|].
  split; [destruct data as [m wb h]; simpl; intros -> c url ->; reflexivity|].
  split; [destruct data as [m wb h]; simpl; intros -> -> c url ->; reflexivity|].
  split; [intros ->; reflexivity|].
  intros -> Hhelp Hfirst apiKey Hkey Hkne.
  rewrite (run_no_playable_url w vaamUrl captureId apiKey Hhelp Hfirst Hid
             Hkey Hkne lookup Hfetch Hok all_blank Hjson eq_refl).
  split; [|reflexivity].
  eapply reports_intro; reflexivity.
Qed.

Lemma empty_field_is_absent_witness :
  extractVideoUrl all_blank_world share_url (start all_blank_world)
    = Normal None (start all_blank_world) /\
  reports (run all_blank_world) VIDEO_EXTRACTION_FAILED /\
  exit_status (run all_blank_world) = 2 /\
  extractVideoUrl blank_mp4_world share_url (start blank_mp4_world)
    = Normal (Some "https://cdn.example/v.webm") (start blank_mp4_world).
Proof.
  destruct (empty_field_is_absent all_blank_world share_url "abc123"
              {| ok := true; status := 200; statusText := "OK";
                 json := Fulfilled (Some all_blank);
                 arrayBuffer := Fulfilled sample_video |}
              all_blank (start all_blank_world)
              eq_refl eq_refl eq_refl eq_refl)
    as (none & Hrun & _ & _ & _ & _ & _ & Hnone & Hreport).
  destruct (empty_field_is_absent blank_mp4_world share_url "abc123"
              {| ok := true; status := 200; statusText := "OK";
                 json := Fulfilled (Some blank_mp4);
                 arrayBuffer := Fulfilled sample_video |}
              blank_mp4 (start blank_mp4_world)
              eq_refl eq_refl eq_refl eq_refl)
    as (some & Hrun' & _ & Hwebm & _).
  rewrite (Hnone eq_refl) in Hrun.
  rewrite (Hwebm eq_refl _ _ eq_refl) in Hrun'.
  destruct (Hreport eq_refl eq_refl eq_refl "key" eq_refl) as [Hrep Hexit];
    [discriminate|].
  split; [exact Hrun|]. split; [exact Hrep|]. split; [exact Hexit|exact Hrun'].
Defined.

(** * Further properties of the script *)

(** ** The share-URL pattern *)

Lemma strip_prefix_spec p s r : strip_prefix p s = Some r <-> s = p +:+ r.
Proof.
  revert s. induction p as [|a p IH]; intros s; simpl.
  - split; [intros [= ->]; reflexivity|intros ->; reflexivity].
  - destruct s as [|b s]; [split; discriminate|].
    destruct (Ascii.eqb_spec a b) as [<-|Hne].
    + rewrite IH. split; [intros ->; reflexivity|intros [= ->]; reflexivity].
    + split; [discriminate|]. intros [= <- _]. contradiction.
Qed.

(** X1: [extractCaptureId] accepts exactly the strings made of the
    share prefix followed by a non-empty id of word characters and
    hyphens, and returns that id. *)
Theorem extractCaptureId_spec (vaamUrl captureId : string) :
  extractCaptureId vaamUrl = Some captureId <->
  vaamUrl = "https://app.vaam.io/share/" +:+ captureId /\
  captureId <> "" /\
  all_chars is_id_char captureId = true.
Proof.
  unfold extractCaptureId, VAAM_URL_PATTERN_match.
  change "https://app.vaam.io/share/" with SHARE_PREFIX.
  destruct (strip_prefix SHARE_PREFIX vaamUrl) as [id|] eqn:Hstrip.
  - apply strip_prefix_spec in Hstrip. subst vaamUrl.
    destruct (String.eqb_spec id "") as [Hid|Hid]; simpl.
    + split; [discriminate|]. intros (Heq & Hne & _).
      apply strip_prefix_spec in Heq. rewrite (proj2 (strip_prefix_spec _ _ _) eq_refl) in Heq.
      congruence.
    + destruct (all_chars is_id_char id) eqn:Hall.
      * split; [intros [= <-]; auto|].
        intros (Heq & _). apply strip_prefix_spec in Heq.
        rewrite (proj2 (strip_prefix_spec _ _ _) eq_refl) in Heq. exact Heq.
      * split; [discriminate|]. intros (Heq & _ & Hall').
        apply strip_prefix_spec in Heq.
        rewrite (proj2 (strip_prefix_spec _ _ _) eq_refl) in Heq. congruence.
  - split; [discriminate|]. intros (Heq & _).
    apply strip_prefix_spec in Heq. congruence.
Qed.

(** ** The command line *)

Lemma startsWith_dash_cons a s :
  startsWith (String a s) "-" = Ascii.eqb a "-".
Proof.
  change "-" with (String "-" "") at 1. rewrite startsWith_cons.
  destruct (Ascii.ascii_dec "-" a) as [<-|Hne].
  - unfold startsWith. destruct s; reflexivity.
  - symmetry. apply Ascii.eqb_neq. congruence.
Qed.

(** X2: the positional arguments are the arguments that do not begin
    with [-], in their order; the second test of the filter, for [--],
    never decides.  None of them is one of the four flags. *)
Theorem positionalArgs_spec (args : list string) :
  positionalArgs args = List.filter (fun arg => negb (startsWith arg "-")) args /\
  Forall (fun arg => startsWith arg "-" = false /\ is_known_flag arg = false)
    (positionalArgs args).
Proof.
  split.
  - unfold positionalArgs. apply List.filter_ext. intros a.
    destruct (startsWith a "-") eqn:Ha; [reflexivity|].
    rewrite (startsWith_dash2 _ Ha). reflexivity.
  - apply Forall_forall. intros a Hin%list_elem_of_In.
    apply List.filter_In in Hin as [_ Ha].
    apply andb_prop in Ha as [Ha _]. apply negb_true_iff in Ha.
    split; [exact Ha|].
    unfold is_known_flag, is_verbose_flag.
    destruct (String.eqb_spec a "--help") as [->|_]; [discriminate Ha|].
    destruct (String.eqb_spec a "-h") as [->|_]; [discriminate Ha|].
    destruct (String.eqb_spec a "--verbose") as [->|_]; [discriminate Ha|].
    destruct (String.eqb_spec a "-v") as [->|_]; [discriminate Ha|].
    reflexivity.
Qed.

(** X3: a help flag anywhere on the command line wins over everything
    else: the run prints the usage text only and exits with code 0,
    whatever the other arguments, the credential and the network. *)
Theorem help_flag_wins (w : world) :
  In "--help" (argv w) \/ In "-h" (argv w) ->
  run w = Exited 0
    {| stdout := [help]; fs := files w; verbose := false; tempFilePath := None |}.
Proof.
  intros H. apply run_help. unfold helpFlag, includes.
  apply orb_true_iff.
  destruct H as [H|H]; [left|right]; apply existsb_exists; eexists;
    (split; [exact H|apply String.eqb_refl]).
Qed.

Lemma help_flag_wins_witness :
  run (sample_world ["not-a-url"; "-h"] None (Rejected "not reached") unused)
  = Exited 0
      {| stdout := [help]; fs := ∅; verbose := false; tempFilePath := None |}.
Proof.
  apply (help_flag_wins
           (sample_world ["not-a-url"; "-h"] None (Rejected "not reached") unused)).
  right. simpl. auto.
Defined.

Lemma includes_app args rest x :
  includes (args ++ rest) x = includes args x || includes rest x.
Proof. unfold includes. apply existsb_app. Qed.

Lemma includes_false args x :
  (forall a, In a args -> a <> x) -> includes args x = false.
Proof.
  intros H. unfold includes. induction args as [|a args IH]; [reflexivity|].
  simpl. destruct (String.eqb_spec x a) as [->|_].
  - exfalso. apply (H a); [left|]; reflexivity.
  - apply IH. intros b Hb. apply H. right. exact Hb.
Qed.

Lemma positionalArgs_app args rest :
  positionalArgs (args ++ rest) = positionalArgs args ++ positionalArgs rest.
Proof. unfold positionalArgs. apply List.filter_app. Qed.

(** The run reads the command line through the two flags and the
    first positional argument only. *)
Lemma run_with_argv w args :
  helpFlag args = helpFlag (argv w) ->
  verboseFlag args = verboseFlag (argv w) ->
  head (positionalArgs args) = head (positionalArgs (argv w)) ->
  run (with_argv w args) = run w.
Proof.
  intros Hh Hv Hp. unfold run, script, main, start. simpl.
  rewrite Hh, Hv, Hp. reflexivity.
Qed.

(** X4: once the command line holds a positional argument, anything
    appended to it that is not one of the four flags is ignored, be it
    a second URL or an unknown option: the run is the same. *)
Theorem extra_arguments_ignored (w : world) (rest : list string) :
  positionalArgs (argv w) <> [] ->
  forallb (fun arg => negb (is_known_flag arg)) rest = true ->
  run (with_argv w (argv w ++ rest)) = run w.
Proof.
  intros Hpos Hrest.
  assert (Hnot : forall x, is_known_flag x = true -> includes rest x = false).
  { intros x Hx. apply includes_false. intros a Ha ->.
    rewrite forallb_forall in Hrest. specialize (Hrest _ Ha).
    rewrite Hx in Hrest. discriminate Hrest. }
  apply run_with_argv.
  - unfold helpFlag. rewrite !includes_app, !Hnot by reflexivity.
    rewrite !orb_false_r. reflexivity.
  - unfold verboseFlag. rewrite !includes_app, !Hnot by reflexivity.
    rewrite !orb_false_r. reflexivity.
  - rewrite positionalArgs_app.
    destruct (positionalArgs (argv w)); [contradiction|reflexivity].
Qed.

Lemma extra_arguments_ignored_witness :
  run (with_argv (happy_world [share_url])
         [share_url; "https://app.vaam.io/share/other"; "--verbos"])
  = run (happy_world [share_url]).
Proof.
  apply (extra_arguments_ignored (happy_world [share_url])
           ["https://app.vaam.io/share/other"; "--verbos"]).
  - discriminate.
  - reflexivity.
Defined.

(** ** The terminal paths of a run *)

(** Split on everything a run consults, in the order the script
    consults it, and hand each terminal path to [k]. *)
Ltac run_cases w k :=
  destruct (helpFlag (argv w)) eqn:Hhelp; [k|
  destruct (truthy (head (positionalArgs (argv w)))) eqn:Harg; [|k];
  destruct (head (positionalArgs (argv w))) as [vaamUrl|] eqn:Hfirst;
    [|discriminate Harg];
  assert (Hne : vaamUrl <> "") by (intros ->; discriminate Harg);
  destruct (VAAM_URL_PATTERN_test vaamUrl) eqn:Htest; [|k];
  destruct (truthy (GEMINI_API_KEY w)) eqn:Hkey; [|k];
  destruct (GEMINI_API_KEY w) as [apiKey|] eqn:Hhas; [|discriminate Hkey];
  assert (Hkne : apiKey <> "") by (intros ->; discriminate Hkey);
  destruct (test_extractCaptureId _ Htest) as [captureId Hid];
  destruct (fetch w (api_url captureId)) as [lookup|reason] eqn:Hlookup; [|k];
  destruct (ok lookup) eqn:Hok; [|k];
  destruct (json lookup) as [[data|]|reason] eqn:Hjson; [|k|k];
  destruct (select_url data) as [videoUrl|] eqn:Hsel; [|k];
  destruct (mkdir w (TEMP_DIR w)) as [[]|reason] eqn:Hmkdir; [|k];
  destruct (fetch w videoUrl) as [media|reason] eqn:Hmedia; [|k];
  destruct (ok media) eqn:Hmok; [|k];
  destruct (arrayBuffer media) as [video|reason] eqn:Hbody; [|k];
  destruct (Bun_write w (temp_path w) video) as [[]|reason] eqn:Hwrite; [|k];
  destruct (generateContent w apiKey GEMINI_MODEL video prompt)
    as [text|reason] eqn:Hgemini; k].

(** Replace [run w] by its value on the path at hand; [side] proves
    the conditions of the path. *)
Ltac know_run_by w side :=
  first
    [ rewrite (run_help w) by side
    | rewrite (run_missing_argument w) by side
    | erewrite (run_invalid_url w) by side
    | erewrite (run_missing_api_key w) by side
    | erewrite (run_lookup_rejected w) by side
    | erewrite (run_lookup_not_ok w) by side
    | erewrite (run_lookup_unparseable w) by side
    | erewrite (run_lookup_no_payload w) by side
    | erewrite (run_no_playable_url w) by side
    | erewrite (run_mkdir_rejected w) by side
    | erewrite (run_media_rejected w) by side
    | erewrite (run_media_not_ok w) by side
    | erewrite (run_media_body_rejected w) by side
    | erewrite (run_write_rejected w) by side
    | erewrite (run_transcription_rejected w) by side
    | erewrite (run_success w) by side ].

Ltac know_run w := know_run_by w eassumption.

Ltac report_found :=
  first
    [ eapply reports_intro with (before := []); reflexivity
    | eapply reports_intro; reflexivity
    | eapply reports_intro with (before := _ ++ [_]);
      rewrite <- app_assoc; reflexivity ].

(** X5: every run ends in [process.exit]: no error escapes the script
    and the module never runs to its end.  The exit status is 0, or it
    is the exit code of the error code that the last line of standard
    output reports. *)
Theorem run_ends_in_exit (w : world) :
  exists c p,
    run w = Exited c p /\
    (c = 0 \/ exists code, reports (run w) code /\ c = getExitCode code).
Proof.
  run_cases w ltac:(
    know_run w; do 2 eexists; (split; [reflexivity|]);
    first [ left; reflexivity
          | right; eexists; (split; [report_found|reflexivity]) ]).
Qed.

(** X6: a run records a temporary path only once the downloaded
    video is stored there: at its end either no path is recorded, or
    the recorded path is the temporary path and the file there holds
    the body of the media response.  Every file that was there at the
    start, the temporary path apart, is still there with its
    contents. *)
Theorem run_file_system (w : world) :
  (tempFilePath (final (run w)) = None \/
   exists videoUrl media video,
     fetch w videoUrl = Fulfilled media /\
     arrayBuffer media = Fulfilled video /\
     tempFilePath (final (run w)) = Some (temp_path w) /\
     fs (final (run w)) !! temp_path w = Some video) /\
  forall path data,
    path <> temp_path w -> files w !! path = Some data ->
    fs (final (run w)) !! path = Some data.
Proof.
  run_cases w ltac:(
    know_run w; simpl;
    (split; [first [ left; reflexivity
                   | right; exists videoUrl, media, video;
                     repeat split; try assumption; apply lookup_insert_eq ]|]);
    intros path data' Hpath Hfile;
    rewrite ?lookup_insert_ne by congruence; exact Hfile).
Qed.

(** X7: exit status 1 is decided by the command line and the
    credential alone: a second invocation with the same arguments and
    the same GEMINI_API_KEY, on whatever network and file system, ends
    with status 1 and the same output. *)
Theorem validation_is_local (w w' : world) :
  argv w' = argv w ->
  GEMINI_API_KEY w' = GEMINI_API_KEY w ->
  exit_status (run w) = 1 ->
  exit_status (run w') = 1 /\
  stdout (final (run w')) = stdout (final (run w)).
Proof.
  intros Hargv Hk.
  run_cases w ltac:(
    know_run w; simpl; intros Hexit; try discriminate Hexit;
    know_run_by w' ltac:(rewrite ?Hargv, ?Hk; eassumption);
    split; reflexivity).
Qed.

Lemma validation_is_local_witness :
  exit_status (run no_key_world) = 1 /\
  exit_status (run (sample_world [share_url] None
                      (http_ok (Fulfilled (Some sample_paths)))
                      (Fulfilled "Hello from the video."))) = 1 /\
  stdout (final (run (sample_world [share_url] None
                        (http_ok (Fulfilled (Some sample_paths)))
                        (Fulfilled "Hello from the video."))))
  = stdout (final (run no_key_world)).
Proof.
  split; [reflexivity|].
  apply (validation_is_local no_key_world
           (sample_world [share_url] None
              (http_ok (Fulfilled (Some sample_paths)))
              (Fulfilled "Hello from the video."))); reflexivity.
Defined.

Lemma progress_line_is_no_object (line : string) (e : ErrorResult) :
  startsWith line "{" = false -> line <> JSON_stringify e.
Proof.
  intros Hline ->. discriminate Hline.
Qed.

(** X8: a failing run writes exactly one error object, unless the
    lookup endpoint answered with a falsy JSON body: the object is the
    last line of standard output, the lines before it are the progress
    lines of verbose mode, none of which is an error object, and the
    exit status is the exit code of the object's error code. *)
Theorem one_error_object (w : world) :
  exit_status (run w) <> 0 ->
  (forall captureId lookup,
     fetch w (api_url captureId) = Fulfilled lookup ->
     json lookup <> Fulfilled None) ->
  exists lines e,
    stdout (final (run w)) =
    progress (verboseFlag (argv w)) lines ++ [JSON_stringify e] /\
    Forall (fun line => forall e', line <> JSON_stringify e') lines /\
    exit_status (run w) = getExitCode (code (error e)).
Proof.
  run_cases w ltac:(
    know_run w; simpl; intros Hexit Hfalsy;
    first [ contradiction
          | exfalso; eapply Hfalsy; eassumption
          | exists []; eexists;
            (split; [destruct (verboseFlag (argv w)); reflexivity|]);
            (split; [constructor|reflexivity])
          | do 2 eexists; (split; [reflexivity|]);
            (split; [|reflexivity]);
            repeat constructor; intros e';
            apply progress_line_is_no_object; reflexivity ]).
Qed.

Lemma one_error_object_witness :
  exists e,
    stdout (final (run offline_world)) = [JSON_stringify e] /\
    exit_status (run offline_world) = getExitCode (code (error e)).
Proof.
  destruct (one_error_object offline_world) as (lines & e & Hout & _ & Hexit).
  - discriminate.
  - intros captureId lookup Hfetch. unfold offline_world, sample_world in Hfetch.
    simpl in Hfetch. unfold sample_fetch in Hfetch.
    destruct (String.eqb (api_url captureId) sample_api_url).
    + discriminate Hfetch.
    + injection Hfetch as <-. discriminate.
  - exists e. split; [exact Hout|exact Hexit].
Defined.

(** ** The verbose flag *)

Lemma includes_filter_keep (P : string -> bool) args x :
  P x = true -> includes (List.filter P args) x = includes args x.
Proof.
  intros Hx. unfold includes. induction args as [|a args IH]; [reflexivity|].
  simpl. destruct (P a) eqn:Ha; simpl.
  - rewrite IH. reflexivity.
  - destruct (String.eqb_spec x a) as [->|_]; [congruence|exact IH].
Qed.

Lemma includes_filter_drop (P : string -> bool) args x :
  P x = false -> includes (List.filter P args) x = false.
Proof.
  intros Hx. apply includes_false. intros a Ha%List.filter_In ->.
  destruct Ha as [_ Ha]. congruence.
Qed.

Lemma helpFlag_quiet args : helpFlag (quiet_args args) = helpFlag args.
Proof.
  unfold helpFlag, quiet_args. rewrite !includes_filter_keep; reflexivity.
Qed.

Lemma verboseFlag_quiet args : verboseFlag (quiet_args args) = false.
Proof.
  unfold verboseFlag, quiet_args. rewrite !includes_filter_drop; reflexivity.
Qed.

Lemma positionalArgs_quiet args :
  positionalArgs (quiet_args args) = positionalArgs args.
Proof.
  unfold quiet_args. induction args as [|a args IH]; [reflexivity|].
  simpl. destruct (is_verbose_flag a) eqn:Ha; simpl.
  - rewrite IH. unfold positionalArgs at 2. cbn [List.filter].
    replace (startsWith a "-") with true; [reflexivity|].
    unfold is_verbose_flag in Ha. apply orb_prop in Ha.
    destruct Ha as [->%String.eqb_eq| ->%String.eqb_eq]; reflexivity.
  - unfold positionalArgs in *. cbn [List.filter]. rewrite IH. reflexivity.
Qed.

(** X9: the verbose flag changes nothing but the progress lines:
    without [--verbose] and [-v] the run ends with the same exit
    status, the same file system and the same recorded path, and its
    output is what the verbose run prints after its progress lines. *)
Theorem verbose_only_adds_progress (w : world) :
  exit_status (run (quiet w)) = exit_status (run w) /\
  fs (final (run (quiet w))) = fs (final (run w)) /\
  tempFilePath (final (run (quiet w))) = tempFilePath (final (run w)) /\
  exists lines,
    stdout (final (run w)) =
    progress (verboseFlag (argv w)) lines ++ stdout (final (run (quiet w))).
Proof.
  run_cases w ltac:(
    know_run w;
    know_run_by (quiet w)
      ltac:(first [ eassumption
                  | unfold quiet; cbn [argv with_argv];
                    rewrite ?helpFlag_quiet, ?positionalArgs_quiet;
                    eassumption ]);
    unfold quiet; cbn [argv with_argv]; rewrite ?verboseFlag_quiet; simpl;
    repeat (split; [reflexivity|]);
    first [ exists []; destruct (verboseFlag (argv w)); reflexivity
          | eexists; reflexivity ]).
Qed.

(** Gather, on the path at hand, the truthiness facts that let the
    script past its guards. *)
Ltac path_facts :=
  try match goal with
      | Hi : extractCaptureId _ = Some _, Hk : GEMINI_API_KEY _ = Some ?k,
        Hn : ?k <> "" |- _ =>
          destruct (entry_facts _ _ _ Hi Hn) as (? & ? & ? & ?)
      end;
  try match goal with
      | Hn : ?u <> "", Hf : head _ = Some ?u |- _ =>
          pose proof (truthy_nonempty _ Hn)
      end;
  try match goal with
      | Hs : select_url _ = Some _ |- _ => pose proof (select_url_truthy _ _ Hs)
      end;
  try match goal with
      | Hw : Bun_write _ (temp_path _) _ = _ |- _ => unfold temp_path in Hw
      end.

(** Compute [main] on the path at hand. *)
Ltac know_main w :=
  path_facts; crank;
  try match goal with
      | |- context [match head (positionalArgs (argv w)) with _ => _ end] =>
          destruct (head (positionalArgs (argv w)))
      end;
  try match goal with
      | |- context [match GEMINI_API_KEY w with _ => _ end] =>
          destruct (GEMINI_API_KEY w)
      end;
  crank; destruct (verboseFlag (argv w)); crank;
  rewrite ?lookup_insert_eq; crank.

(** X10: an error leaves [main] only before the download: at that
    point no temporary path is recorded and the file system is
    untouched, so the cleanup of the top-level handler has nothing to
    delete. *)
Theorem main_throws_before_download (w : world) (err : string) (p : process) :
  main w (start w) = Thrown err p ->
  tempFilePath p = None /\ fs p = files w /\ cleanup p = Normal tt p.
Proof.
  set (Q := tempFilePath p = None /\ fs p = files w /\ cleanup p = Normal tt p).
  run_cases w ltac:(
    know_main w;
    first [ discriminate
          | subst Q; intros [= <- <-]; repeat split; reflexivity ]).
Qed.

Lemma main_throws_before_download_witness :
  tempFilePath (start offline_world) = None /\
  fs (start offline_world) = files offline_world /\
  cleanup (start offline_world) = Normal tt (start offline_world).
Proof.
  apply (main_throws_before_download offline_world offline_reason).
  reflexivity.
Defined.

(** ** The stages on their own *)



(** X12: [cleanup] can be run again at no cost: from the state it
    leaves, a second call returns that same state.  (The script does
    run it twice when an error leaves [main]: in the [finally] block
    and in the top-level handler.) *)
Theorem cleanup_twice (p p' : process) :
  cleanup p = Normal tt p' -> cleanup p' = Normal tt p'.
Proof.
  destruct p as [out f v [path|]]; crank; [|intros [= <-]; reflexivity].
  destruct (truthy (Some path)) eqn:Htruthy; [|intros [= <-]; crank; reflexivity].
  destruct (f !! path) eqn:Hfile.
  - destruct v; intros [= <-]; crank; rewrite lookup_delete_eq; reflexivity.
  - intros [= <-]. crank. reflexivity.
Qed.

Lemma cleanup_twice_witness :
  cleanup {| stdout := []; fs := ∅; verbose := false;
             tempFilePath := Some "/tmp/v.mp4" |}
  = Normal tt {| stdout := []; fs := ∅; verbose := false;
                 tempFilePath := Some "/tmp/v.mp4" |}.
Proof.
  apply (cleanup_twice
           {| stdout := []; fs := {[ "/tmp/v.mp4" := sample_video ]};
              verbose := false; tempFilePath := Some "/tmp/v.mp4" |}).
  vm_compute. reflexivity.
Defined.

(** X13: whatever the network answers, [extractVideoUrl] either
    returns or throws, it never exits the process; it leaves the file
    system and the two globals alone; and a URL it returns is not the
    empty string. *)
Theorem extractVideoUrl_outcome (w : world) (vaamUrl : string) (p : process) :
  ((exists url p', extractVideoUrl w vaamUrl p = Normal url p' /\ url <> Some "") \/
   (exists reason p', extractVideoUrl w vaamUrl p = Thrown reason p')) /\
  fs (final (extractVideoUrl w vaamUrl p)) = fs p /\
  verbose (final (extractVideoUrl w vaamUrl p)) = verbose p /\
  tempFilePath (final (extractVideoUrl w vaamUrl p)) = tempFilePath p.
Proof.
  destruct p as [out f v t].
  destruct (extractCaptureId vaamUrl) as [captureId|] eqn:Hid.
  - pose proof (extractCaptureId_truthy _ _ Hid).
    destruct (fetch w (api_url captureId)) as [lookup|reason] eqn:Hlookup.
    + destruct (ok lookup) eqn:Hok.
      * destruct (json lookup) as [[data|]|reason] eqn:Hjson.
        -- destruct (select_url data) as [url|] eqn:Hsel.
           ++ pose proof (select_url_truthy _ _ Hsel) as Hurl.
              crank; destruct v; crank;
                (split; [left; do 2 eexists; split; [reflexivity|]|auto]);
                intros [= ->]; discriminate Hurl.
           ++ crank; destruct v; crank;
                (split; [left; do 2 eexists; split; [reflexivity|discriminate]
                        |auto]).
        -- crank; destruct v; crank;
             (split; [left; do 2 eexists; split; [reflexivity|discriminate]|auto]).
        -- crank; destruct v; crank; (split; [right; eauto|auto]).
      * crank; destruct v; crank;
          (split; [left; do 2 eexists; split; [reflexivity|discriminate]|auto]).
    + crank; destruct v; crank; (split; [right; eauto|auto]).
  - crank. split; [left; do 2 eexists; split; [reflexivity|discriminate]|auto].
Qed.

Lemma append_assoc (a b c : string) : (a +:+ b) +:+ c = a +:+ (b +:+ c).
Proof.
  induction a as [|x a IH]; [reflexivity|].
  change (String x ((a +:+ b) +:+ c) = String x (a +:+ (b +:+ c))).
  rewrite IH. reflexivity.
Qed.

Section Download.
Variable w : world.
Variables videoUrl : string.
Variable media : Response.
Variable video : list Byte.byte.
Hypothesis mkdir_ok : mkdir w (TEMP_DIR w) = Fulfilled tt.
Hypothesis media_answers : fetch w videoUrl = Fulfilled media.
Hypothesis media_ok : ok media = true.
Hypothesis media_body : arrayBuffer media = Fulfilled video.
Hypothesis written : Bun_write w (temp_path w) video = Fulfilled tt.

(** X14: when the directory, the request, the body and the write all
    succeed, [downloadVideo] returns the path
    [join(join(tmpdir(), "gemini-analyze-video"), "vaam-<Date.now()>.mp4")]
    with the response body stored there, so that reading the path back
    gives the body; the files at other paths are kept, and the path is
    not recorded by [downloadVideo] itself. *)
Theorem downloadVideo_stores_body (p : process) :
  exists p',
    downloadVideo w videoUrl p = Normal (temp_path w) p' /\
    temp_path w =
      join [join [tmpdir w; "gemini-analyze-video"];
            "vaam-" +:+ decimal (Date_now w) +:+ ".mp4"] /\
    fs p' !! temp_path w = Some video /\
    (forall path data,
       path <> temp_path w -> fs p !! path = Some data ->
       fs p' !! path = Some data) /\
    tempFilePath p' = tempFilePath p /\
    readFile (Some (temp_path w)) p' = Normal video p'.
Proof.
  pose proof written as Hwrite. unfold temp_path in Hwrite.
  destruct p as [out f v t]. crank.
  destruct v; crank; eexists; (split; [reflexivity|]);
    (split; [reflexivity|]); simpl;
    (split; [apply lookup_insert_eq|]);
    (split; [intros path data Hpath Hfile;
             rewrite lookup_insert_ne
               by (intros E; apply Hpath; symmetry; exact E);
             exact Hfile|]);
    (split; [reflexivity|]); crank; rewrite lookup_insert_eq; reflexivity.
Qed.

(** X15: what [transcribeVideo] sends to Gemini after a download is
    the downloaded body, with the caller's key, the fixed model name
    and the fixed prompt; the text the model returns is the result of
    the two stages. *)
Theorem download_then_transcribe (p : process) (apiKey text : string) :
  generateContent w apiKey "gemini-2.5-flash" video prompt = Fulfilled text ->
  exists p',
    (filePath ← downloadVideo w videoUrl; transcribeVideo w (Some filePath) apiKey) p
    = Normal text p' /\
    fs p' !! temp_path w = Some video.
Proof.
  intros Hgemini. change "gemini-2.5-flash" with GEMINI_MODEL in Hgemini.
  pose proof written as Hwrite. unfold temp_path in Hwrite.
  destruct p as [out f v t]. crank.
  destruct v; crank; rewrite lookup_insert_eq; crank;
    eexists; (split; [reflexivity|]); simpl; apply lookup_insert_eq.
Qed.
End Download.

Lemma downloadVideo_stores_body_witness :
  (exists p',
     downloadVideo (happy_world [share_url]) "https://cdn.example/v.mp4"
       (start (happy_world [share_url]))
     = Normal "/tmp/gemini-analyze-video/vaam-1700000000000.mp4" p' /\
     fs p' !! "/tmp/gemini-analyze-video/vaam-1700000000000.mp4"
     = Some sample_video) /\
  (exists p',
     downloadVideo (with_tmpdir (happy_world [share_url]) "/")
       "https://cdn.example/v.mp4" (start (happy_world [share_url]))
     = Normal "/gemini-analyze-video/vaam-1700000000000.mp4" p' /\
     fs p' !! "/gemini-analyze-video/vaam-1700000000000.mp4"
     = Some sample_video).
Proof.
  split.
  - destruct (downloadVideo_stores_body (happy_world [share_url])
                "https://cdn.example/v.mp4" sample_media sample_video
                eq_refl eq_refl eq_refl eq_refl eq_refl
                (start (happy_world [share_url])))
      as (p' & Hrun & _ & Hfile & _).
    exists p'. split; [exact Hrun|exact Hfile].
  - destruct (downloadVideo_stores_body
                (with_tmpdir (happy_world [share_url]) "/")
                "https://cdn.example/v.mp4" sample_media sample_video
                eq_refl eq_refl eq_refl eq_refl eq_refl
                (start (happy_world [share_url])))
      as (p' & Hrun & _ & Hfile & _).
    exists p'. split; [exact Hrun|exact Hfile].
Defined.

Lemma download_then_transcribe_witness :
  exists p',
    (filePath ← downloadVideo (happy_world [share_url]) "https://cdn.example/v.mp4";
     transcribeVideo (happy_world [share_url]) (Some filePath) "key")
      (start (happy_world [share_url]))
    = Normal "Hello from the video." p' /\
    fs p' !! temp_path (happy_world [share_url]) = Some sample_video.
Proof.
  apply (download_then_transcribe (happy_world [share_url])
           "https://cdn.example/v.mp4" sample_media sample_video
           eq_refl eq_refl eq_refl eq_refl eq_refl
           (start (happy_world [share_url])) "key" "Hello from the video.").
  reflexivity.
Defined.

(** ** Failures of the later stages *)

(** X16: when the run reaches the download and [downloadVideo] throws
    (the directory cannot be made, the request is rejected or answers
    a non-success status, the body cannot be read, the write fails),
    the run reports VIDEO_DOWNLOAD_FAILED with the thrown message in
    its details and exits with code 2; no path is recorded, and every
    file that was there at the start, the temporary path apart, is
    still there with its contents. *)
Theorem download_failure_reported
    (w : world) (vaamUrl apiKey videoUrl err : string) (p q : process) :
  reaches_download w vaamUrl apiKey videoUrl ->
  downloadVideo w videoUrl p = Thrown err q ->
  (exists lines,
     stdout (final (run w)) =
     progress (verboseFlag (argv w)) lines
     ++ [JSON_stringify (download_failed_error err)]) /\
  reports (run w) VIDEO_DOWNLOAD_FAILED /\
  exit_status (run w) = 2 /\
  tempFilePath (final (run w)) = None /\
  (forall path data,
     path <> temp_path w -> files w !! path = Some data ->
     fs (final (run w)) !! path = Some data).
Proof.
  intros [] Hthrow. revert Hthrow. destruct p as [out f v t].
  match goal with |- _ -> ?C => set (Q := C) end.
  destruct (mkdir w (TEMP_DIR w)) as [[]|reason] eqn:Hmkdir;
    [destruct (fetch w videoUrl) as [media|reason] eqn:Hmedia;
     [destruct (ok media) eqn:Hmok;
      [destruct (arrayBuffer media) as [video|reason] eqn:Hbody;
       [destruct (Bun_write w (temp_path w) video) as [[]|reason] eqn:Hwrite|]
      |]
     |]
    |];
    try (pose proof Hwrite as Hwrite'; unfold temp_path in Hwrite');
    crank; destruct v; crank; try discriminate; intros [= <- <-];
    subst Q; know_run w; simpl;
    (split; [eexists; reflexivity|]); (split; [report_found|]); auto.
Qed.

Lemma download_failure_reported_witness :
  reports (run not_found_world) VIDEO_DOWNLOAD_FAILED /\
  stdout (final (run not_found_world))
    = [JSON_stringify (download_failed_error "HTTP 404: Not Found")] /\
  exit_status (run not_found_world) = 2.
Proof.
  assert (Hreach : reaches_download not_found_world share_url "key"
                     "https://cdn.example/v.mp4")
    by (apply (lookup_selects _ _ _ _ "abc123" sample_lookup sample_paths);
        solve [reflexivity | discriminate]).
  destruct (download_failure_reported not_found_world share_url "key"
              "https://cdn.example/v.mp4" "HTTP 404: Not Found"
              (start not_found_world) (start not_found_world)
              Hreach eq_refl)
    as (_ & Hrep & Hexit & _).
  split; [exact Hrep|]. split; [|exact Hexit]. vm_compute. reflexivity.
Defined.

(** X17: when the download succeeded and Gemini rejects the request,
    the run reports TRANSCRIPTION_FAILED with the rejection message in
    its details and exits with code 2; the downloaded video is still
    on disk, at the recorded path. *)
Theorem transcription_failure_reported
    (w : world) (vaamUrl apiKey videoUrl reason : string)
    (media : Response) (video : list Byte.byte) :
  reaches_download w vaamUrl apiKey videoUrl ->
  mkdir w (TEMP_DIR w) = Fulfilled tt ->
  fetch w videoUrl = Fulfilled media ->
  ok media = true ->
  arrayBuffer media = Fulfilled video ->
  Bun_write w (temp_path w) video = Fulfilled tt ->
  generateContent w apiKey GEMINI_MODEL video prompt = Rejected reason ->
  (exists lines,
     stdout (final (run w)) =
     progress (verboseFlag (argv w)) lines
     ++ [JSON_stringify (transcription_failed_error reason)]) /\
  reports (run w) TRANSCRIPTION_FAILED /\
  exit_status (run w) = 2 /\
  tempFilePath (final (run w)) = Some (temp_path w) /\
  fs (final (run w)) !! temp_path w = Some video.
Proof.
  intros [] Hmkdir Hmedia Hmok Hbody Hwrite Hgemini.
  know_run w. simpl.
  split; [eexists; reflexivity|]. split; [report_found|].
  repeat split. apply lookup_insert_eq.
Qed.

Lemma transcription_failure_reported_witness :
  reports (run gemini_down_world) TRANSCRIPTION_FAILED /\
  exit_status (run gemini_down_world) = 2 /\
  fs (final (run gemini_down_world)) !! temp_path gemini_down_world
    = Some sample_video.
Proof.
  assert (Hreach : reaches_download gemini_down_world share_url "key"
                     "https://cdn.example/v.mp4")
    by (apply (lookup_selects _ _ _ _ "abc123" sample_lookup sample_paths);
        solve [reflexivity | discriminate]).
  destruct (transcription_failure_reported gemini_down_world share_url "key"
              "https://cdn.example/v.mp4" gemini_reason sample_media sample_video
              Hreach eq_refl eq_refl eq_refl eq_refl eq_refl eq_refl)
    as (_ & Hrep & Hexit & _ & Hfile).
  split; [exact Hrep|]. split; assumption.
Defined.

(** ** The printed error object *)

Lemma append_cons x (a b : string) : String x a +:+ b = String x (a +:+ b).
Proof. reflexivity. Qed.

Lemma all_chars_app (P : ascii -> bool) (a b : string) :
  all_chars P (a +:+ b) = all_chars P a && all_chars P b.
Proof.
  induction a as [|x a IH]; [reflexivity|].
  rewrite append_cons. simpl. rewrite IH, andb_assoc. reflexivity.
Qed.

Lemma json_escape_printable c : all_chars printable (json_escape c) = true.
Proof. destruct c as [[] [] [] [] [] [] [] []]; vm_compute; reflexivity. Qed.

Lemma json_escape_all_printable s :
  all_chars printable (json_escape_all s) = true.
Proof.
  induction s as [|c s IH]; [reflexivity|].
  cbn [json_escape_all]. rewrite all_chars_app, json_escape_printable, IH.
  reflexivity.
Qed.

Lemma count_char_app c (a b : string) :
  count_char c (a +:+ b) = (count_char c a + count_char c b)%nat.
Proof.
  induction a as [|x a IH]; [reflexivity|].
  rewrite append_cons. simpl. rewrite IH. destruct (Ascii.eqb x c); reflexivity.
Qed.

Lemma count_newline_printable s :
  all_chars printable s = true -> count_char newline s = 0%nat.
Proof.
  induction s as [|x s IH]; [reflexivity|].
  simpl. intros [Hx Hs]%andb_prop. rewrite (IH Hs).
  destruct (Ascii.eqb_spec x newline) as [->|_]; [discriminate Hx|reflexivity].
Qed.

(** X18: a string printed by [JSON.stringify] holds no control
    character, whatever its contents: line breaks, tabs and the like
    are written as escapes.  So every error object is printed on
    nine lines (eight line breaks), whatever the messages it carries. *)
Theorem JSON_stringify_lines :
  (forall s, all_chars printable (json_quote s) = true) /\
  (forall e, count_char newline (JSON_stringify e) = 8%nat).
Proof.
  assert (Hquote : forall s, all_chars printable (json_quote s) = true).
  { intros s. unfold json_quote. cbn [all_chars].
    rewrite all_chars_app, json_escape_all_printable. reflexivity. }
  split; [exact Hquote|].
  intros [b [c m d s]].
  unfold JSON_stringify, json_member, nl, str.
  cbn [success error code message details suggestion].
  rewrite !count_char_app, !(count_newline_printable _ (Hquote _)).
  destruct b; reflexivity.
Qed.

Lemma read_char_escape c rest : read_char (json_escape c +:+ rest) = Some (c, rest).
Proof. destruct c as [[] [] [] [] [] [] [] []]; reflexivity. Qed.

Lemma read_char_quote rest : read_char (String dquote rest) = None.
Proof. reflexivity. Qed.

(** The contents of a string literal end at the first bare quote, and
    determine the string. *)
Lemma json_escape_all_inj s s' rest rest' :
  json_escape_all s +:+ String dquote rest
  = json_escape_all s' +:+ String dquote rest' ->
  s = s' /\ rest = rest'.
Proof.
  revert s'. induction s as [|c s IH]; intros [|c' s'] H.
  - injection H as ->. auto.
  - exfalso. apply (f_equal read_char) in H.
    cbn [json_escape_all] in H. rewrite append_assoc, read_char_escape in H.
    discriminate H.
  - exfalso. apply (f_equal read_char) in H.
    cbn [json_escape_all] in H. rewrite append_assoc, read_char_escape in H.
    discriminate H.
  - pose proof (f_equal read_char H) as Hhead.
    cbn [json_escape_all] in Hhead.
    rewrite !append_assoc, !read_char_escape in Hhead.
    injection Hhead as -> Htail.
    destruct (IH _ Htail) as [-> ->]. auto.
Qed.

Lemma json_quote_inj s s' rest rest' :
  json_quote s +:+ rest = json_quote s' +:+ rest' -> s = s' /\ rest = rest'.
Proof.
  unfold json_quote. rewrite !append_cons. intros [= H].
  rewrite !append_assoc in H. apply json_escape_all_inj in H. exact H.
Qed.

Lemma code_name_inj c c' : code_name c = code_name c' -> c = c'.
Proof. destruct c, c'; solve [reflexivity | discriminate]. Qed.

Lemma append_cancel (a x y : string) : a +:+ x = a +:+ y -> x = y.
Proof.
  induction a as [|c a IH]; [auto|]. rewrite !append_cons. intros [= H]. auto.
Qed.

(** X19: nothing is lost in printing: two error objects that print
    alike have the same success flag, code, message, details and
    suggestion. *)
Theorem JSON_stringify_inj (e e' : ErrorResult) :
  JSON_stringify e = JSON_stringify e' -> e = e'.
Proof.
  destruct e as [b [c m d s]], e' as [b' [c' m' d' s']].
  unfold JSON_stringify, json_member, json_bool, nl, str.
  cbn [success error code message details suggestion].
  rewrite !append_assoc. intros H.
  do 5 apply append_cancel in H.
  assert (b = b') as <-.
  { destruct b, b'; try reflexivity; rewrite !append_cons in H; discriminate H. }
  do 11 apply append_cancel in H.
  apply json_quote_inj in H as [<-%code_name_inj H].
  do 5 apply append_cancel in H.
  apply json_quote_inj in H as [<- H].
  do 5 apply append_cancel in H.
  apply json_quote_inj in H as [<- H].
  do 5 apply append_cancel in H.
  apply json_quote_inj in H as [<- _].
  reflexivity.
Qed.

Lemma JSON_stringify_inj_witness :
  missing_argument_error = missing_argument_error.
Proof.
  apply (JSON_stringify_inj missing_argument_error missing_argument_error).
  reflexivity.
Defined.

(** * Properties of the helpers *)

Lemma total_backoff d i n :
  total (map (fun j => d * 2 ^ Z.of_nat j) (seq i n))
  = d * 2 ^ Z.of_nat i * (2 ^ Z.of_nat n - 1).
Proof.
  revert i. induction n as [|n IH]; intros i; [simpl; lia|].
  cbn [seq map total foldr]. fold (total (map (λ j, d * 2 ^ Z.of_nat j) (seq (S i) n))).
  rewrite IH. rewrite !Nat2Z.inj_succ, !Z.pow_succ_r by lia. lia.
Qed.

Section RetryFacts.
Context {A : Type}.
Variable number : Z -> string.
Variable fn : nat -> settled A.
Variable d : Z.

Lemma retry_loop_rejected (e : nat -> string) n i last :
  (forall j, (i <= j < i + n)%nat -> fn j = Rejected (e j)) ->
  snd (retry_loop number fn d i n last)
    = Threw (match n with O => last | S m => Some (e (i + m)%nat) end) /\
  calls (fst (retry_loop number fn d i n last)) = seq i n /\
  sleeps (fst (retry_loop number fn d i n last))
    = map (fun j => d * 2 ^ Z.of_nat j) (seq i n).
Proof.
  revert i last. induction n as [|n IH]; intros i last Hfn; [auto|].
  cbn [retry_loop]. rewrite (Hfn i) by lia.
  destruct (IH (S i) (Some (e i))) as (Hr & Hc & Hs); [intros j Hj; apply Hfn; lia|].
  destruct (retry_loop number fn d (S i) n (Some (e i))) as [trace r].
  simpl in *. rewrite Hc, Hs. split; [|auto].
  rewrite Hr. destruct n; [rewrite Nat.add_0_r; reflexivity|].
  f_equal. f_equal. f_equal. lia.
Qed.

Lemma retry_loop_fulfilled (e : nat -> string) a k n i last :
  (forall j, (i <= j < i + k)%nat -> fn j = Rejected (e j)) ->
  fn (i + k)%nat = Fulfilled a ->
  (k < n)%nat ->
  snd (retry_loop number fn d i n last) = Returned a /\
  calls (fst (retry_loop number fn d i n last)) = seq i (S k) /\
  sleeps (fst (retry_loop number fn d i n last))
    = map (fun j => d * 2 ^ Z.of_nat j) (seq i k).
Proof.
  revert i n last. induction k as [|k IH]; intros i n last Hfn Hok Hlt.
  - destruct n; [lia|]. cbn [retry_loop]. rewrite Nat.add_0_r in Hok.
    rewrite Hok. auto.
  - destruct n; [lia|]. cbn [retry_loop]. rewrite (Hfn i) by lia.
    destruct (IH (S i) n (Some (e i))) as (Hr & Hc & Hs);
      [intros j Hj; apply Hfn; lia|rewrite <- Hok; f_equal; lia|lia|].
    destruct (retry_loop number fn d (S i) n (Some (e i))) as [trace r].
    simpl in *. rewrite Hc, Hs. auto.
Qed.
End RetryFacts.

(** X20: when the first [k] calls of [fn] are rejected and the next
    one, still within [maxRetries], is fulfilled, [retryWithBackoff]
    returns its value after exactly [k + 1] calls, pausing
    [initialDelay * 2^j] after the j-th failure:
    [initialDelay * (2^k - 1)] in all. *)
Theorem retryWithBackoff_first_success {A : Type} (number : Z -> string)
    (fn : nat -> settled A) (maxRetries initialDelay : option Z)
    (e : nat -> string) (a : A) (k : nat) :
  (forall j, (j < k)%nat -> fn j = Rejected (e j)) ->
  fn k = Fulfilled a ->
  Z.of_nat k < default 3 maxRetries ->
  snd (retryWithBackoff number fn maxRetries initialDelay) = Returned a /\
  calls (fst (retryWithBackoff number fn maxRetries initialDelay)) = seq 0 (S k) /\
  sleeps (fst (retryWithBackoff number fn maxRetries initialDelay))
    = map (fun j => default 1000 initialDelay * 2 ^ Z.of_nat j) (seq 0 k) /\
  total (sleeps (fst (retryWithBackoff number fn maxRetries initialDelay)))
    = default 1000 initialDelay * (2 ^ Z.of_nat k - 1).
Proof.
  intros Hfail Hok Hlt. unfold retryWithBackoff.
  destruct (retry_loop_fulfilled number fn (default 1000 initialDelay) e a k
              (Z.to_nat (default 3 maxRetries)) 0 None)
    as (Hr & Hc & Hs); [intros j Hj; apply Hfail; lia|exact Hok|lia|].
  rewrite Hr, Hc, Hs, total_backoff. repeat split. simpl. lia.
Qed.

Lemma retryWithBackoff_first_success_witness :
  snd (retryWithBackoff (fun n => decimal (Z.to_N n))
         (fun i => if (i <? 2)%nat then Rejected "timeout" else Fulfilled 7)
         None None) = Returned 7 /\
  sleeps (fst (retryWithBackoff (fun n => decimal (Z.to_N n))
         (fun i => if (i <? 2)%nat then Rejected "timeout" else Fulfilled 7)
         None None)) = [1000; 2000].
Proof.
  destruct (retryWithBackoff_first_success (fun n => decimal (Z.to_N n))
              (fun i => if (i <? 2)%nat then Rejected "timeout" else Fulfilled 7)
              None None (fun _ => "timeout") 7 2)
    as (Hr & _ & Hs & _).
  - intros [|[|j]] Hj; solve [reflexivity | lia].
  - reflexivity.
  - reflexivity.
  - split; [exact Hr|exact Hs].
Defined.

(** X21: when every call of [fn] is rejected, [retryWithBackoff] makes
    exactly [maxRetries] calls and throws the error of the last one; it
    pauses after every failure, the last one included, so the caller
    waits [initialDelay * (2^maxRetries - 1)] before it sees the error.
    With [maxRetries] zero or negative, [fn] is never called and the
    thrown value is [undefined]. *)
Theorem retryWithBackoff_exhausted {A : Type} (number : Z -> string)
    (fn : nat -> settled A) (maxRetries initialDelay : option Z)
    (e : nat -> string) :
  (forall j, Z.of_nat j < default 3 maxRetries -> fn j = Rejected (e j)) ->
  snd (retryWithBackoff number fn maxRetries initialDelay)
    = Threw (match Z.to_nat (default 3 maxRetries) with
             | O => None
             | S m => Some (e m)
             end) /\
  calls (fst (retryWithBackoff number fn maxRetries initialDelay))
    = seq 0 (Z.to_nat (default 3 maxRetries)) /\
  length (sleeps (fst (retryWithBackoff number fn maxRetries initialDelay)))
    = Z.to_nat (default 3 maxRetries) /\
  total (sleeps (fst (retryWithBackoff number fn maxRetries initialDelay)))
    = default 1000 initialDelay
      * (2 ^ Z.of_nat (Z.to_nat (default 3 maxRetries)) - 1).
Proof.
  intros Hfail. unfold retryWithBackoff.
  destruct (retry_loop_rejected (A := A) number fn (default 1000 initialDelay) e
              (Z.to_nat (default 3 maxRetries)) 0 None)
    as (Hr & Hc & Hs); [intros j Hj; apply Hfail; lia|].
  rewrite Hr, Hc, Hs, total_backoff, length_map, length_seq.
  repeat split. simpl. lia.
Qed.

Lemma retryWithBackoff_exhausted_witness :
  snd (retryWithBackoff (fun n => decimal (Z.to_N n))
         (fun i => Rejected (A := nat) (decimal (N.of_nat i))) None None)
    = Threw (Some "2") /\
  sleeps (fst (retryWithBackoff (fun n => decimal (Z.to_N n))
         (fun i => Rejected (A := nat) (decimal (N.of_nat i))) None None))
    = [1000; 2000; 4000].
Proof.
  destruct (retryWithBackoff_exhausted (fun n => decimal (Z.to_N n))
              (fun i => Rejected (A := nat) (decimal (N.of_nat i))) None None
              (fun i => decimal (N.of_nat i)))
    as (Hr & _).
  - reflexivity.
  - split; [exact Hr|reflexivity].
Defined.

Lemma wait_loop_found probe k n i :
  (forall j, (i <= j < i + k)%nat -> probe j = false) ->
  probe (i + k)%nat = true ->
  (k < n)%nat ->
  snd (wait_loop probe i n) = true /\
  calls (fst (wait_loop probe i n)) = seq i (S k) /\
  sleeps (fst (wait_loop probe i n)) = replicate k 500.
Proof.
  revert i n. induction k as [|k IH]; intros i n Hno Hyes Hlt.
  - destruct n; [lia|]. cbn [wait_loop]. rewrite Nat.add_0_r in Hyes.
    rewrite Hyes. auto.
  - destruct n; [lia|]. cbn [wait_loop]. rewrite (Hno i) by lia.
    destruct (IH (S i) n) as (Hr & Hc & Hs);
      [intros j Hj; apply Hno; lia|rewrite <- Hyes; f_equal; lia|lia|].
    destruct (wait_loop probe (S i) n) as [trace r].
    simpl in *. rewrite Hc, Hs. auto.
Qed.

Lemma wait_loop_missing probe n i :
  (forall j, (i <= j < i + n)%nat -> probe j = false) ->
  snd (wait_loop probe i n) = false /\
  calls (fst (wait_loop probe i n)) = seq i n /\
  sleeps (fst (wait_loop probe i n)) = replicate n 500.
Proof.
  revert i. induction n as [|n IH]; intros i Hno; [auto|].
  cbn [wait_loop]. rewrite (Hno i) by lia.
  destruct (IH (S i)) as (Hr & Hc & Hs); [intros j Hj; apply Hno; lia|].
  destruct (wait_loop probe (S i) n) as [trace r].
  simpl in *. rewrite Hc, Hs. auto.
Qed.

(** Among the first [n] probes, none succeeds or there is a first one
    that does. *)
Lemma first_probe (probe : nat -> bool) n :
  (forall j, (j < n)%nat -> probe j = false) \/
  exists k, (k < n)%nat /\ probe k = true /\
            forall j, (j < k)%nat -> probe j = false.
Proof.
  induction n as [|n [Hno|(k & Hk & Hp & Hbefore)]].
  - left. intros j Hj. lia.
  - destruct (probe n) eqn:Hn.
    + right. exists n. auto.
    + left. intros j Hj. destruct (decide (j = n)) as [->|]; [exact Hn|].
      apply Hno. lia.
  - right. exists k. split; [lia|auto].
Qed.

(** X22: [waitForChromeDebug] answers [true] exactly when one of its
    first [maxAttempts] probes succeeds; it stops at the first such
    probe, having paused 500 ms after each failed one.  When none
    succeeds it has probed [maxAttempts] times and paused as often,
    the last pause coming after the last probe. *)
Theorem waitForChromeDebug_spec (probe : nat -> bool) (maxAttempts : option Z) :
  (snd (waitForChromeDebug probe maxAttempts) = true <->
   exists k, Z.of_nat k < default 10 maxAttempts /\ probe k = true) /\
  (forall k,
     (forall j, (j < k)%nat -> probe j = false) -> probe k = true ->
     Z.of_nat k < default 10 maxAttempts ->
     calls (fst (waitForChromeDebug probe maxAttempts)) = seq 0 (S k) /\
     sleeps (fst (waitForChromeDebug probe maxAttempts)) = replicate k 500) /\
  (snd (waitForChromeDebug probe maxAttempts) = false ->
   calls (fst (waitForChromeDebug probe maxAttempts))
     = seq 0 (Z.to_nat (default 10 maxAttempts)) /\
   sleeps (fst (waitForChromeDebug probe maxAttempts))
     = replicate (Z.to_nat (default 10 maxAttempts)) 500).
Proof.
  unfold waitForChromeDebug. set (n := Z.to_nat (default 10 maxAttempts)).
  assert (Hnone : (forall j, (j < n)%nat -> probe j = false) \/
                  exists k, (k < n)%nat /\ probe k = true /\
                            forall j, (j < k)%nat -> probe j = false)
    by apply first_probe.
  split; [|split].
  - split.
    + intros Htrue. destruct Hnone as [Hno|(k & Hk & Hp & _)].
      * destruct (wait_loop_missing probe n 0) as (Hr & _);
          [intros j Hj; apply Hno; lia|]. congruence.
      * exists k. split; [lia|exact Hp].
    + intros (k & Hk & Hp).
      destruct Hnone as [Hno|(k' & Hk' & Hp' & Hbefore)].
      * rewrite Hno in Hp by lia. discriminate Hp.
      * destruct (wait_loop_found probe k' n 0) as (Hr & _);
          [intros j Hj; apply Hbefore; lia|exact Hp'|exact Hk'|exact Hr].
  - intros k Hbefore Hp Hk.
    destruct (wait_loop_found probe k n 0) as (_ & Hc & Hs);
      [intros j Hj; apply Hbefore; lia|exact Hp|lia|auto].
  - intros Hfalse. destruct Hnone as [Hno|(k' & Hk' & Hp' & Hbefore)].
    + destruct (wait_loop_missing probe n 0) as (_ & Hc & Hs);
        [intros j Hj; apply Hno; lia|auto].
    + destruct (wait_loop_found probe k' n 0) as (Hr & _);
        [intros j Hj; apply Hbefore; lia|exact Hp'|exact Hk'|congruence].
Qed.

Lemma waitForChromeDebug_spec_witness :
  snd (waitForChromeDebug (fun i => (2 <=? i)%nat) None) = true /\
  sleeps (fst (waitForChromeDebug (fun i => (2 <=? i)%nat) None)) = [500; 500].
Proof.
  destruct (waitForChromeDebug_spec (fun i => (2 <=? i)%nat) None)
    as (Hiff & Hfound & _).
  split.
  - apply Hiff. exists 2%nat. split; reflexivity.
  - apply (Hfound 2%nat); [intros [|[|j]] Hj; solve [reflexivity|lia]
                          |reflexivity|reflexivity].
Defined.

Section ClickFacts.
Variable number : Z -> string.
Variable attempt : nat -> settled unit.
Variable selector : string.
Variables maxRetries pause : Z.


Lemma click_loop_fulfilled (e : nat -> string) k n i :
  (forall j, (i <= j < i + k)%nat -> attempt j = Rejected (e j)) ->
  attempt (i + k)%nat = Fulfilled tt ->
  Z.of_nat (i + k) < maxRetries ->
  (k < n)%nat ->
  snd (click_loop number attempt selector maxRetries pause i n)
    = Returned (Some true) /\
  calls (fst (click_loop number attempt selector maxRetries pause i n))
    = seq i (S k) /\
  sleeps (fst (click_loop number attempt selector maxRetries pause i n))
    = replicate k pause.
Proof.
  revert i n. induction k as [|k IH]; intros i n Hfail Hok Hmax Hlt.
  - destruct n; [lia|]. cbn [click_loop]. rewrite Nat.add_0_r in Hok.
    rewrite Hok. auto.
  - destruct n; [lia|]. cbn [click_loop]. rewrite (Hfail i) by lia.
    replace (Z.of_nat i =? maxRetries - 1) with false
      by (symmetry; apply Z.eqb_neq; lia).
    destruct (IH (S i) n) as (Hr & Hc & Hs);
      [intros j Hj; apply Hfail; lia|rewrite <- Hok; f_equal; lia|lia|lia|].
    destruct (click_loop number attempt selector maxRetries pause (S i) n)
      as [trace r].
    simpl in *. rewrite Hc, Hs. auto.
Qed.
End ClickFacts.



(** X24: when the first [k] attempts fail and the next one, still
    within [options.retries || 3], succeeds, [safeClick] returns [true]
    after [k + 1] attempts and [k] pauses of [options.retryDelay || 1000]. *)
Theorem safeClick_succeeds (number : Z -> string)
    (attempt : nat -> settled unit) (selector : string)
    (options : ClickOptions) (e : nat -> string) (k : nat) :
  (forall j, (j < k)%nat -> attempt j = Rejected (e j)) ->
  attempt k = Fulfilled tt ->
  Z.of_nat k < number_or (retries options) 3 ->
  snd (safeClick number attempt selector options) = Returned (Some true) /\
  calls (fst (safeClick number attempt selector options)) = seq 0 (S k) /\
  sleeps (fst (safeClick number attempt selector options))
    = replicate k (number_or (retryDelay options) 1000).
Proof.
  intros Hfail Hok Hlt. unfold safeClick.
  apply (click_loop_fulfilled number attempt selector _ _ e k _ 0);
    [intros j Hj; apply Hfail; lia|exact Hok|simpl; lia|lia].
Qed.

Lemma safeClick_succeeds_witness :
  snd (safeClick (fun n => decimal (Z.to_N n))
         (fun i => if (i <? 1)%nat then Rejected "Timeout" else Fulfilled tt)
         "#go" {| retries := None; retryDelay := Some 250 |})
    = Returned (Some true) /\
  sleeps (fst (safeClick (fun n => decimal (Z.to_N n))
         (fun i => if (i <? 1)%nat then Rejected "Timeout" else Fulfilled tt)
         "#go" {| retries := None; retryDelay := Some 250 |})) = [250].
Proof.
  destruct (safeClick_succeeds (fun n => decimal (Z.to_N n))
              (fun i => if (i <? 1)%nat then Rejected "Timeout" else Fulfilled tt)
              "#go" {| retries := None; retryDelay := Some 250 |}
              (fun _ => "Timeout") 1)
    as (Hr & _ & Hs).
  - intros [|j] Hj; [reflexivity|lia].
  - reflexivity.
  - reflexivity.
  - split; [exact Hr|exact Hs].
Defined.

Lemma set_order_In seen ports port :
  In port (set_order seen ports) <-> In port ports /\ ~ In port seen.
Proof.
  revert seen. induction ports as [|p ports IH]; intros seen; simpl.
  - tauto.
  - destruct (existsb (N.eqb p) seen) eqn:Hseen.
    + apply existsb_exists in Hseen as (x & Hx & ->%N.eqb_eq).
      rewrite IH. split; [tauto|].
      intros [[<-|Hin] Hnot]; [contradiction|tauto].
    + assert (Hp : ~ In p seen).
      { intros Hin.
        assert (existsb (N.eqb p) seen = true)
          by (apply existsb_exists; exists p; split;
              [exact Hin|apply N.eqb_refl]).
        congruence. }
      simpl. rewrite IH. simpl. split.
      * intros [<-|[Hin Hnot]]; [tauto|]. split; [tauto|]. tauto.
      * intros [[<-|Hin] Hnot]; [tauto|].
        destruct (N.eq_dec p port) as [->|Hne]; [tauto|]. right.
        split; [exact Hin|]. intros [?|?]; [congruence|contradiction].
Qed.

Lemma set_order_NoDup seen ports : NoDup (set_order seen ports).
Proof.
  revert seen. induction ports as [|p ports IH]; intros seen; simpl.
  - constructor.
  - destruct (existsb (N.eqb p) seen); [apply IH|].
    constructor; [|apply IH].
    rewrite list_elem_of_In, set_order_In. simpl. tauto.
Qed.

Lemma detect_loop_spec number probe ports :
  snd (detect_loop number probe ports)
    = map (fun port => "http://localhost:" +:+ number (Z.of_N port))
        (List.filter (answers probe) ports) /\
  requests (fst (detect_loop number probe ports)) = ports.
Proof.
  induction ports as [|port rest [IHfound IHreq]]; [auto|].
  cbn [detect_loop List.filter]. unfold answers at 1.
  destruct (detect_loop number probe rest) as [trace found].
  cbn [fst snd] in *.
  unfold requests in *.
  destruct (probe port) as [statusCode|]; [destruct (statusCode <? 500)%N|];
    simpl in *; (split; [rewrite IHfound; reflexivity|f_equal; exact IHreq]).
Qed.

Lemma requests_app a b : requests (a ++ b) = requests a ++ requests b.
Proof. apply omap_app. Qed.

Lemma requests_log line trace : requests (ConsoleLog line :: trace) = requests trace.
Proof. reflexivity. Qed.

Lemma requests_tail (b : bool) line :
  requests (if b then [ConsoleLog line] else []) = [].
Proof. destruct b; reflexivity. Qed.

(** X25: [detectDevServers] requests each of the ten common ports and
    each further custom port once, in order of first appearance,
    however often a port was passed.  It returns the URLs
    [http://localhost:<port>], in that order, of exactly the ports whose
    request was answered with a status below 500 (a 404 counts, a 500
    or a refused connection does not). *)
Theorem detectDevServers_spec (number : Z -> string) (probe : N -> option N)
    (customPorts : list N) :
  snd (detectDevServers number probe customPorts)
    = map (fun port => "http://localhost:" +:+ number (Z.of_N port))
        (List.filter (answers probe)
           (requests (fst (detectDevServers number probe customPorts)))) /\
  NoDup (requests (fst (detectDevServers number probe customPorts))) /\
  (forall port,
     In port (requests (fst (detectDevServers number probe customPorts))) <->
     In port commonPorts \/ In port customPorts) /\
  exists others,
    requests (fst (detectDevServers number probe customPorts))
    = commonPorts ++ others.
Proof.
  assert (Hreq : requests (fst (detectDevServers number probe customPorts))
                 = set_order [] (commonPorts ++ customPorts)).
  { unfold detectDevServers.
    destruct (detect_loop_spec number probe
                (set_order [] (commonPorts ++ customPorts))) as [_ Hr].
    destruct (detect_loop number probe _) as [trace found].
    cbn [fst snd] in *.
    rewrite requests_log, requests_app, Hr, requests_tail. apply app_nil_r. }
  rewrite Hreq. split; [|split; [|split]].
  - unfold detectDevServers.
    destruct (detect_loop_spec number probe
                (set_order [] (commonPorts ++ customPorts))) as [Hf _].
    destruct (detect_loop number probe _) as [trace found]. exact Hf.
  - apply set_order_NoDup.
  - intros port. rewrite set_order_In, in_app_iff. simpl. tauto.
  - eexists. reflexivity.
Qed.

Lemma detectDevServers_spec_witness :
  snd (detectDevServers (fun n => decimal (Z.to_N n))
         (fun port => if (port =? 5173)%N then Some 404%N
                      else if (port =? 8080)%N then Some 500%N else None)
         [5173; 7000; 5173]%N)
  = ["http://localhost:5173"] /\
  length (requests (fst (detectDevServers (fun n => decimal (Z.to_N n))
         (fun port => if (port =? 5173)%N then Some 404%N
                      else if (port =? 8080)%N then Some 500%N else None)
         [5173; 7000; 5173]%N))) = 11%nat.
Proof.
  destruct (detectDevServers_spec (fun n => decimal (Z.to_N n))
              (fun port => if (port =? 5173)%N then Some 404%N
                           else if (port =? 8080)%N then Some 500%N else None)
              [5173; 7000; 5173]%N) as (Hfound & _).
  split; [rewrite Hfound|]; reflexivity.
Defined.
